(** * Link validation for the elizaOS documentation tree

    A shallow embedding of [link_validation_script.py] (class
    [LinkValidator]) together with the parts of the Python standard
    library it calls ([str] methods, [pathlib], [re.finditer] on the
    three fixed patterns, [difflib.get_close_matches]).

    Modelling conventions.
    - A Python [str] is a [string]; the model covers ASCII text, so
      [str.lower] and [re.IGNORECASE] fold the letters A-Z only.
    - The set [self.all_files] is a [gset string].  Python does not
      fix the order in which a set is iterated (for strings it changes
      with the interpreter's hash seed), so every function that loops
      over the set takes that order as an explicit list [ord].
    - [Path.read_text] may raise; it returns a [result].  An [Entry]
      holds the value [Path.is_file] returned; the call that raises is
      modelled by [Path] and [Checked]. *)

From stdpp Require Import gmap strings list sorting.
From Stdlib Require Import Ascii QArith.

Local Close Scope Q_scope.


(** ** Python string primitives *)

Module PyStr.

(** [s.startswith(p)] *)
Definition startswith (p s : string) : bool := String.prefix p s.

(** [s[n:]] *)
Fixpoint drop (n : nat) (s : string) : string :=
  match n, s with
  | O, _ => s
  | S _, EmptyString => EmptyString
  | S n', String _ s' => drop n' s'
  end.

(** [s[:n]] *)
Fixpoint take (n : nat) (s : string) : string :=
  match n, s with
  | O, _ => EmptyString
  | S _, EmptyString => EmptyString
  | S n', String c s' => String c (take n' s')
  end.

(** [s.endswith(suf)] *)
Definition endswith (suf s : string) : bool :=
  (String.length suf <=? String.length s)%nat &&
  String.eqb (drop (String.length s - String.length suf) s) suf.

(** [s.startswith((p1, p2, ...))] and [s.endswith((p1, p2, ...))] *)
Definition startswith_any (ps : list string) (s : string) : bool :=
  existsb (fun p => startswith p s) ps.
Definition endswith_any (ps : list string) (s : string) : bool :=
  existsb (fun p => endswith p s) ps.

(** [s.lstrip(c)] for a one-character argument *)
Fixpoint lstrip (c : ascii) (s : string) : string :=
  match s with
  | String d s' => if Ascii.eqb d c then lstrip c s' else s
  | EmptyString => EmptyString
  end.

(** [s.split(c)] for a one-character separator: the pieces between
    the occurrences of [c], never an empty list. *)
Fixpoint split_go (c : ascii) (cur : string) (s : string) : list string :=
  match s with
  | EmptyString => [String.rev cur]
  | String d s' =>
      if Ascii.eqb d c then String.rev cur :: split_go c EmptyString s'
      else split_go c (String d cur) s'
  end.
Definition split (c : ascii) (s : string) : list string :=
  split_go c EmptyString s.

(** [l[0]] on a list of strings ([IndexError] cannot occur on the
    result of [split], which is never empty). *)
Definition item0 (l : list string) : string := List.hd EmptyString l.

(** [s.count(c)] for a one-character argument *)
Fixpoint count (c : ascii) (s : string) : nat :=
  match s with
  | EmptyString => 0
  | String d s' => (if Ascii.eqb d c then 1 else 0) + count c s'
  end.

(** [s.rfind(c)]: index of the last occurrence, [None] for -1 *)
Fixpoint rfind (c : ascii) (s : string) : option nat :=
  match s with
  | EmptyString => None
  | String d s' =>
      match rfind c s' with
      | Some i => Some (S i)
      | None => if Ascii.eqb d c then Some 0 else None
      end
  end.

(** [c.lower()] and [s.lower()] on ASCII strings (see [is_ascii]):
    only the letters A to Z change. *)
Definition lower_char (c : ascii) : ascii :=
  let n := nat_of_ascii c in
  if (65 <=? n)%nat && (n <=? 90)%nat then ascii_of_nat (n + 32) else c.
Fixpoint lower (s : string) : string :=
  match s with
  | EmptyString => EmptyString
  | String c s' => String (lower_char c) (lower s')
  end.

(** Truth value of a string in a condition: empty is false. *)
Definition truthy (s : string) : bool :=
  match s with EmptyString => false | _ => true end.

End PyStr.

(** ** The documentation tree and [pathlib] *)

(** Outcome of an operation that may raise. *)
Inductive result (A : Type) : Type :=
  | Ok (a : A)
  | Raise (msg : string).
Arguments Ok {A} a.
Arguments Raise {A} msg.

(** [try: body except Exception: handler] *)
Definition try_except {A B : Type} (body : result A) (k : A → B) (handler : string → B) : B :=
  match body with
  | Ok a => k a
  | Raise e => handler e
  end.

(** One entry below [docs_root], as the directory walk meets it:
    [rel] is [str(path.relative_to(docs_root))] (components joined by
    a slash), [is_file] is the value that [path.is_file()] returned,
    and [read_text] is what [path.read_text(encoding='utf-8')] gives:
    the decoded text, or an exception for an I/O or decoding error.
    A call of [is_file()] that raises is the subject of [Path] and
    [Checked] further down. *)
Record Entry : Type := mkEntry {
  rel : string;
  is_file : bool;
  read_text : result string
}.

(** The tree below the root: its entries in the order of the walk. *)
Definition Tree : Type := list Entry.

Module Pathlib.

(** Final component of a relative path. *)
Definition name (p : string) : string :=
  match PyStr.rfind "/"%char p with
  | Some i => PyStr.drop (S i) p
  | None => p
  end.

(** [PurePath.suffix]: the part of the name from its last dot, when
    that dot is neither the first nor the last character. *)
Definition suffix (p : string) : string :=
  let n := name p in
  match PyStr.rfind "."%char n with
  | Some i =>
      if (0 <? i)%nat && (i <? String.length n - 1)%nat
      then PyStr.drop i n else EmptyString
  | None => EmptyString
  end.

(** [str(p.with_suffix(''))]: the suffix, if any, removed. *)
Definition with_suffix_empty (p : string) : string :=
  PyStr.take (String.length p - String.length (suffix p)) p.

(** [root.glob('**/*' + ext)]: the entries, at any depth, whose name
    ends with [ext]; directories are not excluded. *)
Definition glob (ext : string) (t : Tree) : list Entry :=
  List.filter (fun e => PyStr.endswith ext (name (rel e))) t.

End Pathlib.

(** ** Data model of the script *)

Inductive LinkType : Type := markdown | href | src.

Record Link : Type := mkLink {
  link_file : string;
  link_line : nat;
  link_type : LinkType;
  link_text : string;
  link_url : string;
  link_raw_match : string
}.

Record Validation : Type := mkValidation {
  valid : bool;
  target : string;
  suggestion : option string
}.

Inductive Confidence : Type := high | low.

Record BrokenLink : Type := mkBroken {
  broken_link : Link;
  broken_validation : Validation;
  broken_confidence : Confidence
}.

(** The instance fields of [LinkValidator].  [docs_root] is a fixed
    path; what lies below it is passed, as a [Tree], to the methods
    that read the directory.  [validate_calls] is a history variable
    that is not in the script: it records the arguments of the calls
    of [validate_internal_link], in order. *)
Record LinkValidator : Type := mkValidator {
  all_files : gset string;
  links_found : list Link;
  broken_links : list BrokenLink;
  fixes_applied : list string;
  external_links : list Link;
  validate_calls : list Link
}.

#[global] Instance LinkType_eq_dec : EqDecision LinkType.
Proof. solve_decision. Defined.
#[global] Instance Link_eq_dec : EqDecision Link.
Proof. solve_decision. Defined.
#[global] Instance Validation_eq_dec : EqDecision Validation.
Proof. solve_decision. Defined.
#[global] Instance Confidence_eq_dec : EqDecision Confidence.
Proof. solve_decision. Defined.
#[global] Instance BrokenLink_eq_dec : EqDecision BrokenLink.
Proof. solve_decision. Defined.

(** ** File index *)

(** The four strings added for one file. *)
Definition index_variants (r : string) : list string :=
  [ r;
    Pathlib.with_suffix_empty r;
    "/" +:+ r;
    "/" +:+ Pathlib.with_suffix_empty r ].

(** Body of the inner loop of [_build_file_index]. *)
Definition index_add (idx : gset string) (e : Entry) : gset string :=
  if is_file e then
    {[ "/" +:+ Pathlib.with_suffix_empty (rel e) ]} ∪
    ({[ "/" +:+ rel e ]} ∪
     ({[ Pathlib.with_suffix_empty (rel e) ]} ∪
      ({[ rel e ]} ∪ idx)))
  else idx.

Definition index_pattern (t : Tree) (idx : gset string) (ext : string) : gset string :=
  foldl index_add idx (Pathlib.glob ext t).

Definition patterns : list string := [".mdx"; ".md"].

(** [_build_file_index], started from the set [idx]. *)
Definition _build_file_index (t : Tree) (idx : gset string) : gset string :=
  foldl (index_pattern t) idx patterns.

(** [__init__] *)
Definition init (t : Tree) : LinkValidator :=
  {| all_files := _build_file_index t ∅;
    links_found := [];
    broken_links := [];
    fixes_applied := [];
    external_links := [];
    validate_calls := [] |}.

(** ** Classification and normalization *)

Definition is_internal_link (url : string) : bool :=
  if PyStr.startswith_any ["http://"; "https://"] url then false
  else if PyStr.startswith_any ["mailto:"; "tel:"; "ftp:"] url then false
  else true.

Definition known_extensions : list string :=
  [".mdx"; ".md"; ".json"; ".png"; ".jpg"; ".gif"; ".svg"].

(** Outcome of the [if]/[elif] on relative prefixes: either the
    function goes on with a path, or it returns one at once. *)
Inductive Flow : Type :=
  | Continue (url : string)
  | Return (url : string).

Definition normalize_internal_path (url : string) : string :=
  let url := PyStr.item0 (PyStr.split "?" (PyStr.item0 (PyStr.split "#" url))) in
  let flow :=
    if PyStr.startswith "./" url then Continue (PyStr.drop 2 url)
    else if PyStr.startswith "../" url then Return url
    else Continue url in
  match flow with
  | Return url => url
  | Continue url =>
      if negb (PyStr.endswith_any known_extensions url)
      then url +:+ ".mdx" else url
  end.

(** The list [possible_paths] of [validate_internal_link]. *)
Definition possible_paths (normalized : string) : list string :=
  [ normalized;
    PyStr.lstrip "/" normalized;
    "/" +:+ PyStr.lstrip "/" normalized;
    normalized +:+ ".mdx";
    normalized +:+ ".md" ].

(** ** [difflib]

    [SequenceMatcher(None, a, b)] with the default [autojunk=True],
    on sequences of characters.  No junk predicate is given, so the
    junk set is empty; only the purge of popular elements of [b]
    remains.  The ratio [2.0 * matches / length] is kept as an exact
    fraction in [Q]; on the string lengths a path can have, the
    comparisons of the resulting floats agree with those of the
    fractions. *)

Module Difflib.

Fixpoint count_elt (c : ascii) (l : list ascii) : nat :=
  match l with
  | [] => 0
  | d :: l' => (if Ascii.eqb d c then 1 else 0) + count_elt c l'
  end.

(** Positions of [c] in [l], ascending, counted from [i]. *)
Fixpoint positions (c : ascii) (l : list ascii) (i : nat) : list nat :=
  match l with
  | [] => []
  | d :: l' =>
      if Ascii.eqb d c then i :: positions c l' (S i) else positions c l' (S i)
  end.

Definition elt_eq (x y : option ascii) : bool :=
  match x, y with
  | Some c, Some d => Ascii.eqb c d
  | _, _ => false
  end.

Section matcher.
Variables a b : list ascii.

(** [__chain_b]: an element is popular when [b] has at least 200
    elements and it occurs more than [len(b) // 100 + 1] times. *)
Definition popular (c : ascii) : bool :=
  (200 <=? length b)%nat && (length b / 100 + 1 <? count_elt c b)%nat.

(** [b2j.get(c, [])] after the purge. *)
Definition b2j (c : ascii) : list nat :=
  if popular c then [] else positions c b 0.

(** [j2len.get(j - 1, 0)]; for [j = 0] the key is -1, never present. *)
Definition j2len_prev (j2len : gmap nat nat) (j : nat) : nat :=
  match j with
  | O => 0
  | S j' => default 0 (j2len !! j')
  end.

(** The loop [for j in b2j.get(a[i], nothing)] of
    [find_longest_match]. *)
Fixpoint scan_row (i blo bhi : nat) (j2len : gmap nat nat) (js : list nat)
    (newj2len : gmap nat nat) (best : nat * nat * nat)
    : gmap nat nat * (nat * nat * nat) :=
  match js with
  | [] => (newj2len, best)
  | j :: js' =>
      if (j <? blo)%nat then scan_row i blo bhi j2len js' newj2len best
      else if (bhi <=? j)%nat then (newj2len, best)
      else
        let k := (j2len_prev j2len j + 1)%nat in
        let newj2len := <[j := k]> newj2len in
        let best :=
          if (best.2 <? k)%nat then ((i + 1 - k)%nat, (j + 1 - k)%nat, k) else best in
        scan_row i blo bhi j2len js' newj2len best
  end.

(** One iteration of [for i in range(alo, ahi)]. *)
Definition scan_step (blo bhi : nat) (st : gmap nat nat * (nat * nat * nat)) (i : nat)
    : gmap nat nat * (nat * nat * nat) :=
  let js := match a !! i with Some c => b2j c | None => [] end in
  scan_row i blo bhi st.1 js ∅ st.2.

(** First [while]: extend the block to the left. *)
Fixpoint extend_left (alo blo besti bestj bestsize : nat) : nat * nat * nat :=
  match besti, bestj with
  | S i', S j' =>
      if (alo <? besti)%nat && (blo <? bestj)%nat && elt_eq (a !! i') (b !! j')
      then extend_left alo blo i' j' (S bestsize)
      else (besti, bestj, bestsize)
  | _, _ => (besti, bestj, bestsize)
  end.

(** Second [while]: extend to the right; [n] is
    [ahi - (besti + bestsize)], so the test
    [besti + bestsize < ahi] is [n > 0]. *)
Fixpoint extend_right (bhi besti bestj n bestsize : nat) : nat :=
  match n with
  | O => bestsize
  | S n' =>
      if (bestj + bestsize <? bhi)%nat &&
         elt_eq (a !! (besti + bestsize)%nat) (b !! (bestj + bestsize)%nat)
      then extend_right bhi besti bestj n' (S bestsize)
      else bestsize
  end.

Definition find_longest_match (alo ahi blo bhi : nat) : nat * nat * nat :=
  let st := foldl (scan_step blo bhi) (∅, (alo, blo, 0%nat)) (seq alo (ahi - alo)) in
  let '(besti, bestj, bestsize) := st.2 in
  let '(besti, bestj, bestsize) := extend_left alo blo besti bestj bestsize in
  let bestsize := extend_right bhi besti bestj (ahi - (besti + bestsize)) bestsize in
  (besti, bestj, bestsize).

(** Sum of the sizes of the blocks that [get_matching_blocks]
    collects for the region [(alo, ahi, blo, bhi)]: the longest
    block, then the regions to its left and to its right. *)
Fixpoint matches_region (fuel alo ahi blo bhi : nat) : nat :=
  match fuel with
  | O => 0
  | S fuel' =>
      let '(i, j, k) := find_longest_match alo ahi blo bhi in
      if (k =? 0)%nat then 0%nat
      else
        (k
         + (if (alo <? i)%nat && (blo <? j)%nat
            then matches_region fuel' alo i blo j else 0)
         + (if (i + k <? ahi)%nat && (j + k <? bhi)%nat
            then matches_region fuel' (i + k) ahi (j + k) bhi else 0))%nat
  end.

Definition matches : nat :=
  matches_region (S (length a)) 0 (length a) 0 (length b).

(** [_calculate_ratio] *)
Definition _calculate_ratio (matches length : nat) : Q :=
  if (length =? 0)%nat then 1%Q
  else Qmake (2 * Z.of_nat matches) (Pos.of_nat length).

Definition ratio : Q := _calculate_ratio matches (length a + length b).

(** The loop of [quick_ratio]: [avail] maps an element to the
    number of its occurrences in [b] not yet used up. *)
Fixpoint quick_matches (avail : gmap ascii Z) (l : list ascii) (matches : nat) : nat :=
  match l with
  | [] => matches
  | elt :: l' =>
      let numb :=
        match avail !! elt with
        | Some n => n
        | None => Z.of_nat (count_elt elt b)
        end in
      quick_matches (<[elt := (numb - 1)%Z]> avail) l'
        (if (0 <? numb)%Z then (matches + 1)%nat else matches)
  end.

Definition quick_ratio : Q :=
  _calculate_ratio (quick_matches ∅ a 0) (length a + length b).

Definition real_quick_ratio : Q :=
  _calculate_ratio (Nat.min (length a) (length b)) (length a + length b).

End matcher.

(** [(score, x)] tuples compare by score first, then by string. *)
Definition tuple_le (t1 t2 : Q * string) : Prop :=
  match Qcompare t1.1 t2.1 with
  | Lt => True
  | Gt => False
  | Eq => String.le t1.2 t2.2
  end.

Definition tuple_ge : relation (Q * string) := flip tuple_le.

#[global] Instance tuple_le_dec : RelDecision tuple_le.
Proof. intros t1 t2. unfold tuple_le. destruct (Qcompare _ _); apply _. Defined.
#[global] Instance tuple_ge_dec : RelDecision tuple_ge.
Proof. intros t1 t2. unfold tuple_ge, flip. apply _. Defined.

(** [heapq.nlargest(n, l)]: the [n] largest, largest first. *)
Definition nlargest (n : nat) (l : list (Q * string)) : list (Q * string) :=
  firstn n (merge_sort tuple_ge l).

Definition cutoff : Q := Qmake 6 10.

Definition seq_of (s : string) : list ascii := String.list_ascii_of_string s.

(** Body of the loop over [possibilities]: [a] is the candidate,
    [b] the word. *)
Definition close_enough (word x : string) : bool :=
  Qle_bool cutoff (real_quick_ratio (seq_of x) (seq_of word)) &&
  Qle_bool cutoff (quick_ratio (seq_of x) (seq_of word)) &&
  Qle_bool cutoff (ratio (seq_of x) (seq_of word)).

Definition scored (word : string) (possibilities : list string) : list (Q * string) :=
  List.map (fun x => (ratio (seq_of x) (seq_of word), x))
    (List.filter (close_enough word) possibilities).

(** [get_close_matches(word, possibilities, n=3, cutoff=0.6)] *)
Definition get_close_matches (word : string) (possibilities : list string) : list string :=
  List.map snd (nlargest 3 (scored word possibilities)).

End Difflib.

(** ** Validation *)

Section validator.
(** The order in which this run iterates [self.all_files]. *)
Variable ord : list string.

(** The loop [for file_path in self.all_files] of
    [find_closest_match]: the first entry whose lower-case form is
    [m]. *)
Definition original_case (m : string) : option string :=
  List.find (fun file_path => String.eqb (PyStr.lower file_path) m) ord.

Definition find_closest_match (target : string) : option string :=
  let target_normalized := PyStr.lower target in
  let best_matches :=
    Difflib.get_close_matches target_normalized (List.map PyStr.lower ord) in
  match best_matches with
  | m :: _ => original_case m
  | [] => None
  end.

(** The loop [for path in possible_paths]: the first candidate in
    the index. *)
Definition first_indexed (idx : gset string) (paths : list string) : option string :=
  List.find (fun path => bool_decide (path ∈ idx)) paths.

Definition validate_internal_link (idx : gset string) (link : Link) : Validation :=
  let url := link_url link in
  let normalized := normalize_internal_path url in
  match first_indexed idx (possible_paths normalized) with
  | Some path => {| valid := true; target := path; suggestion := None |}
  | None =>
      let suggestion := find_closest_match normalized in
      {| valid := false; target := normalized; suggestion := suggestion |}
  end.
End validator.

(** ** Link extraction

    [re.finditer] for the three patterns of the script.  Each pattern
    is a literal opening, a greedy run over a negated character class,
    and a closing character outside that class, so at a given start
    there is at most one way to match and the matcher is a function. *)

Module Re.

(** Longest prefix of characters satisfying [p], and the rest. *)
Fixpoint span (p : ascii → bool) (s : string) : string * string :=
  match s with
  | EmptyString => (EmptyString, EmptyString)
  | String c s' =>
      if p c then let '(run, rest) := span p s' in (String c run, rest)
      else (EmptyString, s)
  end.

Definition is_quote (c : ascii) : bool :=
  Ascii.eqb c "034"%char || Ascii.eqb c "'"%char.

(** A match at the start of [s]: its groups and its length. *)
Definition MatchAt : Type := option (string * string * nat).

(** The markdown pattern: an opening bracket, the text (a possibly
    empty run without closing bracket), a closing bracket, an
    opening parenthesis, the url (a non-empty run without closing
    parenthesis), a closing parenthesis. *)
Definition match_markdown (s : string) : MatchAt :=
  match s with
  | String "["%char s1 =>
      let '(text, s2) := span (fun c => negb (Ascii.eqb c "]"%char)) s1 in
      match s2 with
      | String "]"%char (String "("%char s3) =>
          let '(url, s4) := span (fun c => negb (Ascii.eqb c ")"%char)) s3 in
          match url, s4 with
          | String _ _, String ")"%char _ =>
              Some (text, url, String.length text + String.length url + 4)
          | _, _ => None
          end
      | _ => None
      end
  | _ => None
  end.

(** The attribute patterns on ASCII text: [attr], one of [href] and
    [src], matched without regard to the case of A to Z, an equals
    sign, a single or double quote, the url (a non-empty run without
    either quote), a single or double quote.  There is no text
    group. *)
Definition match_attr (attr : string) (s : string) : MatchAt :=
  let n := String.length attr + 1 in
  if String.eqb (PyStr.lower (PyStr.take n s)) (attr +:+ "=") then
    match PyStr.drop n s with
    | String q s1 =>
        if is_quote q then
          let '(url, s2) := span (fun c => negb (is_quote c)) s1 in
          match url, s2 with
          | String _ _, String _ _ =>
              Some (EmptyString, url, n + String.length url + 2)
          | _, _ => None
          end
        else None
    | EmptyString => None
    end
  else None.

(** Matches of [m] in [s], left to right and without overlap:
    [(start, text, url, group 0)].  [pos] is the offset of [s] in
    the whole text and [skip] the number of characters still inside
    the previous match. *)
Fixpoint finditer_go (m : string → MatchAt) (s : string) (pos skip : nat)
    : list (nat * string * string * string) :=
  match s with
  | EmptyString => []
  | String _ s' =>
      match skip with
      | S skip' => finditer_go m s' (S pos) skip'
      | O =>
          match m s with
          | Some (text, url, len) =>
              (pos, text, url, PyStr.take len s) :: finditer_go m s' (S pos) (len - 1)
          | None => finditer_go m s' (S pos) 0
          end
      end
  end.

Definition finditer (m : string → MatchAt) (content : string)
    : list (nat * string * string * string) :=
  finditer_go m content 0 0.

End Re.

Definition link_patterns : list ((string → Re.MatchAt) * LinkType) :=
  [ (Re.match_markdown, markdown);
    (Re.match_attr "href", href);
    (Re.match_attr "src", src) ].

(** The links of one pattern in [content]. *)
Definition links_of_pattern (file content : string)
    (p : (string → Re.MatchAt) * LinkType) : list Link :=
  List.map
    (fun '(start, text, url, raw) =>
       {| link_file := file;
          link_line := PyStr.count "010"%char (PyStr.take start content) + 1;
          link_type := p.2;
          link_text := text;
          link_url := url;
          link_raw_match := raw |})
    (Re.finditer p.1 content).

Definition extract_links_from_file (file_path : Entry) : list Link :=
  try_except (read_text file_path)
    (fun content =>
       List.concat (List.map (links_of_pattern (rel file_path) content) link_patterns))
    (fun _ => []).

(** ** Processing and report *)

Section pipeline.
Variable ord : list string.

(** ['high' if validation['suggestion'] else 'low'] *)
Definition confidence_of (suggestion : option string) : Confidence :=
  match suggestion with
  | Some s => if PyStr.truthy s then high else low
  | None => low
  end.

(** Body of [for link in links]. *)
Definition process_link (v : LinkValidator) (link : Link) : LinkValidator :=
  let found := links_found v ++ [link] in
  if is_internal_link (link_url link) then
    let validation := validate_internal_link ord (all_files v) link in
    let calls := validate_calls v ++ [link] in
    if negb (valid validation) then
      {| all_files := all_files v;
         links_found := found;
         broken_links :=
           broken_links v ++
             [ {| broken_link := link;
                  broken_validation := validation;
                  broken_confidence := confidence_of (suggestion validation) |} ];
         fixes_applied := fixes_applied v;
         external_links := external_links v;
         validate_calls := calls |}
    else
      {| all_files := all_files v;
         links_found := found;
         broken_links := broken_links v;
         fixes_applied := fixes_applied v;
         external_links := external_links v;
         validate_calls := calls |}
  else
    {| all_files := all_files v;
       links_found := found;
       broken_links := broken_links v;
       fixes_applied := fixes_applied v;
       external_links := external_links v ++ [link];
       validate_calls := validate_calls v |}.

(** Body of [for file_path in self.docs_root.glob(pattern)]. *)
Definition process_file (v : LinkValidator) (file_path : Entry) : LinkValidator :=
  if is_file file_path then
    foldl process_link v (extract_links_from_file file_path)
  else v.

Definition process_pattern (t : Tree) (v : LinkValidator) (ext : string) : LinkValidator :=
  foldl process_file v (Pathlib.glob ext t).

Definition process_all_files (t : Tree) (v : LinkValidator) : LinkValidator :=
  foldl (process_pattern t) v patterns.
End pipeline.

Record Summary : Type := mkSummary {
  total_files_scanned : nat;
  total_links_found : nat;
  internal_links : nat;
  summary_external_links : nat;
  broken_internal_links : nat;
  summary_fixes_applied : nat
}.

Record Report : Type := mkReport {
  summary : Summary;
  report_broken_links : list BrokenLink;
  report_external_links : list Link;
  report_fixes_applied : list string;
  all_links : list Link
}.

#[global] Instance Summary_eq_dec : EqDecision Summary.
Proof. solve_decision. Defined.
#[global] Instance Report_eq_dec : EqDecision Report.
Proof. solve_decision. Defined.

Definition generate_report (t : Tree) (v : LinkValidator) : Report :=
  {| summary :=
       {| total_files_scanned :=
            length (Pathlib.glob ".mdx" t ++ Pathlib.glob ".md" t);
          total_links_found := length (links_found v);
          internal_links :=
            length (List.filter (fun l => is_internal_link (link_url l)) (links_found v));
          summary_external_links := length (external_links v);
          broken_internal_links := length (broken_links v);
          summary_fixes_applied := length (fixes_applied v) |};
     report_broken_links := broken_links v;
     report_external_links := external_links v;
     report_fixes_applied := fixes_applied v;
     all_links := links_found v |}.

(** The script's main block, up to the report: [ord] is the order in
    which this run iterates the index, [t] the tree below the root. *)
Definition run (ord : list string) (t : Tree) : Report :=
  let validator := init t in
  let validator := process_all_files ord t validator in
  generate_report t validator.

(** ** Definitions used to state the properties *)

(** The files a pass reads, in the order it reads them. *)
Definition scanned_files (t : Tree) : list Entry :=
  List.filter is_file (Pathlib.glob ".mdx" t) ++ List.filter is_file (Pathlib.glob ".md" t).

(** All the links a pass extracts, in order. *)
Definition extracted (t : Tree) : list Link :=
  List.concat (List.map extract_links_from_file (scanned_files t)).

Definition is_external (l : Link) : bool := negb (is_internal_link (link_url l)).
Definition is_internal (l : Link) : bool := is_internal_link (link_url l).

(** The record a link gives rise to, if any. *)
Definition broken_of (ord : list string) (idx : gset string) (l : Link) : option BrokenLink :=
  if is_internal l then
    let validation := validate_internal_link ord idx l in
    if valid validation then None
    else Some {| broken_link := l;
                 broken_validation := validation;
                 broken_confidence := confidence_of (suggestion validation) |}
  else None.

(** The validator after the links [ls] were processed. *)
Definition after_links (ord : list string) (v : LinkValidator) (ls : list Link) : LinkValidator :=
  {| all_files := all_files v;
     links_found := links_found v ++ ls;
     broken_links := broken_links v ++ omap (broken_of ord (all_files v)) ls;
     fixes_applied := fixes_applied v;
     external_links := external_links v ++ List.filter is_external ls;
     validate_calls := validate_calls v ++ List.filter is_internal ls |}.


Definition external_prefixes : list string :=
  ["http://"; "https://"; "mailto:"; "tel:"; "ftp:"].

(** [s] with everything from the first [c] onward removed. *)
Fixpoint strip_from (c : ascii) (s : string) : string :=
  match s with
  | EmptyString => EmptyString
  | String d s' => if Ascii.eqb d c then EmptyString else String d (strip_from c s')
  end.

(** Normalization as the specification words it: fragment and query
    removed; a parent-relative remainder returned as it is; otherwise
    a leading dot-slash dropped and the default extension appended
    when the path has none of the known ones. *)
Definition normalize_spec (url : string) : string :=
  let remainder := strip_from "?" (strip_from "#" url) in
  if PyStr.startswith "../" remainder then remainder
  else
    let path :=
      if PyStr.startswith "./" remainder then PyStr.drop 2 remainder else remainder in
    if PyStr.endswith_any known_extensions path then path else path +:+ ".mdx".

(** Whether the text of a file can be read. *)
Definition readable (e : Entry) : bool :=
  match read_text e with Ok _ => true | Raise _ => false end.

(** The entry with an unreadable text replaced by the empty text. *)
Definition blank_unreadable (e : Entry) : Entry :=
  if readable e then e
  else {| rel := rel e; is_file := is_file e; read_text := Ok EmptyString |}.

(** A file of the tree that either pattern of the script selects. *)
Definition documentation_file (t : Tree) (e : Entry) : Prop :=
  e ∈ t ∧ is_file e = true ∧
  (PyStr.endswith ".mdx" (Pathlib.name (rel e)) = true ∨
   PyStr.endswith ".md" (Pathlib.name (rel e)) = true).

(** A page with an upper-case attribute and an upper-case scheme. *)
Definition upper_scheme_tree : Tree :=
  [ {| rel := "index.md"; is_file := true;
       read_text := Ok "<a HREF='HTTP://example.com'>site</a>" |} ].

Definition upper_scheme_link : Link :=
  {| link_file := "index.md"; link_line := 1; link_type := href; link_text := "";
     link_url := "HTTP://example.com"; link_raw_match := "HREF='HTTP://example.com'" |}.

(** No two distinct strings of [l] are equal after case folding. *)
Definition case_distinct (l : list string) : Prop :=
  ∀ f g, f ∈ l → g ∈ l → PyStr.lower f = PyStr.lower g → f = g.

(** A page whose only link has no near match in the index. *)
Definition no_match_tree : Tree :=
  [ {| rel := "index.md"; is_file := true;
       read_text := Ok "[api](reference/rest-api)" |} ].

Definition no_match_link : Link :=
  {| link_file := "index.md"; link_line := 1; link_type := markdown; link_text := "api";
     link_url := "reference/rest-api"; link_raw_match := "[api](reference/rest-api)" |}.

(** The scenario of the misspelt link: [guide/intro.mdx] exists and
    another page links to [/guide/intor]. *)
Definition intor_tree : Tree :=
  [ {| rel := "guide/intro.mdx"; is_file := true; read_text := Ok "# Intro" |};
    {| rel := "guide/other.mdx"; is_file := true;
       read_text := Ok "[bad](/guide/intor)" |} ].

Definition intor_link : Link :=
  {| link_file := "guide/other.mdx"; link_line := 1; link_type := markdown;
     link_text := "bad"; link_url := "/guide/intor";
     link_raw_match := "[bad](/guide/intor)" |}.

(** Two pages whose names differ in letter case only. *)
Definition case_clash_tree : Tree :=
  [ {| rel := "Guide.md"; is_file := true; read_text := Ok "[g](guide)" |};
    {| rel := "guide.md"; is_file := true; read_text := Ok "" |} ].

(** Decision procedure for [case_distinct]. *)
Definition case_distinctb (l : list string) : bool :=
  forallb (fun f =>
    forallb (fun g =>
      implb (String.eqb (PyStr.lower f) (PyStr.lower g)) (String.eqb f g)) l) l.

(** [best] is a block that starts at or after [alo] and ends at or
    before [hi] in the first sequence. *)
Definition block_within (alo hi : nat) (best : nat * nat * nat) : Prop :=
  alo ≤ best.1.1 ∧ best.1.1 + best.2 ≤ hi.

(** Every length recorded in [j2len] is at most [m]. *)
Definition lengths_below (m : nat) (j2len : gmap nat nat) : Prop :=
  ∀ j k, j2len !! j = Some k → k ≤ m.

(** A url with its fragment and its query cut off. *)
Definition url_remainder (url : string) : string :=
  strip_from "?" (strip_from "#" url).

(** The path a url stands for: the remainder, a leading dot-slash
    dropped. *)
Definition url_path (url : string) : string :=
  let r := url_remainder url in
  if PyStr.startswith "./" r then PyStr.drop 2 r else r.

(** A link whose only file is a page that points to its own anchor. *)
Definition anchor_tree : Tree :=
  [ {| rel := "guide/intro.mdx"; is_file := true;
       read_text := Ok "[top](#top)" |} ].

Definition anchor_link : Link :=
  {| link_file := "guide/intro.mdx"; link_line := 1; link_type := markdown;
     link_text := "top"; link_url := "#top"; link_raw_match := "[top](#top)" |}.

(** A tree of [.md] pages only. *)
Definition md_only_tree : Tree :=
  [ {| rel := "index.md"; is_file := true; read_text := Ok "[guide](guide)" |};
    {| rel := "guide.md"; is_file := true; read_text := Ok "# Guide" |} ].

Definition md_only_link : Link :=
  {| link_file := "index.md"; link_line := 1; link_type := markdown;
     link_text := "guide"; link_url := "guide"; link_raw_match := "[guide](guide)" |}.

(** Order of two links by line number. *)
Definition by_line : relation Link := fun a b => link_line a ≤ link_line b.

(** A page that links to its parent directory. *)
Definition parent_tree : Tree :=
  [ {| rel := "guide/intro.mdx"; is_file := true;
       read_text := Ok "[up](../index)" |};
    {| rel := "index.mdx"; is_file := true; read_text := Ok "# Home" |} ].

Definition parent_link : Link :=
  {| link_file := "guide/intro.mdx"; link_line := 1; link_type := markdown;
     link_text := "up"; link_url := "../index"; link_raw_match := "[up](../index)" |}.

(** ** ASCII text

    [PyStr.lower] and the attribute patterns fold the letters A to Z
    only; that is what [str.lower] and [re.IGNORECASE] do on strings
    for which [str.isascii()] holds.  The statements about letter case
    are made for such strings. *)

Definition is_ascii_char (c : ascii) : bool := (nat_of_ascii c <? 128)%nat.

(** [s.isascii()] *)
Fixpoint is_ascii (s : string) : bool :=
  match s with
  | EmptyString => true
  | String c s' => is_ascii_char c && is_ascii s'
  end.



(** ** A file system whose [is_file()] may raise

    An [Entry] records the value that [path.is_file()] returned.  The
    call itself can raise: for a file in a directory that can be
    listed but not searched it raises [PermissionError], which
    [pathlib] does not swallow.  A [Path] records what each call does;
    the methods that call [is_file()] outside any [try] are given
    again below with that outcome, on top of the ones above. *)

Record Path : Type := mkPath {
  path_rel : string;
  path_is_file : result bool;
  path_read_text : result string
}.

Definition FileSystem : Type := list Path.

(** The entry a run has before it once [is_file()] has returned [b]. *)
Definition seen (p : Path) (b : bool) : Entry :=
  {| rel := path_rel p; is_file := b; read_text := path_read_text p |}.

(** The value [is_file()] returns, when it returns. *)
Definition returned (p : Path) : bool :=
  match path_is_file p with
  | Ok b => b
  | Raise _ => false
  end.

(** The tree of a file system in which the calls return. *)
Definition tree_of (fs : FileSystem) : Tree :=
  List.map (fun p => seen p (returned p)) fs.

(** Sequencing of two steps, the first of which may raise. *)
Definition bind {A B : Type} (r : result A) (k : A → result B) : result B :=
  match r with
  | Ok a => k a
  | Raise e => Raise e
  end.

(** A [for] loop over [l] whose body may raise: the first exception
    ends the loop and is passed on. *)
Fixpoint for_each {S A : Type} (body : S → A → result S) (s : S) (l : list A) : result S :=
  match l with
  | [] => Ok s
  | x :: l' => bind (body s x) (fun s' => for_each body s' l')
  end.

Module Checked.

(** [root.glob] on a file system. *)
Definition glob (ext : string) (fs : FileSystem) : list Path :=
  List.filter (fun p => PyStr.endswith ext (Pathlib.name (path_rel p))) fs.

(** Body of the inner loop of [_build_file_index]: the call of
    [is_file()], then the four additions. *)
Definition index_add (idx : gset string) (p : Path) : result (gset string) :=
  bind (path_is_file p) (fun b => Ok (index_add idx (seen p b))).

Definition index_pattern (fs : FileSystem) (idx : gset string) (ext : string)
    : result (gset string) :=
  for_each index_add idx (glob ext fs).

Definition _build_file_index (fs : FileSystem) (idx : gset string) : result (gset string) :=
  for_each (index_pattern fs) idx patterns.

(** [__init__]: an exception in [_build_file_index] leaves no
    validator. *)
Definition init (fs : FileSystem) : result LinkValidator :=
  bind (_build_file_index fs ∅)
    (fun idx =>
       Ok {| all_files := idx;
             links_found := [];
             broken_links := [];
             fixes_applied := [];
             external_links := [];
             validate_calls := [] |}).

(** Body of [for file_path in self.docs_root.glob(pattern)]: the call
    of [is_file()], then the extraction, which has its own handler. *)
Definition process_file (ord : list string) (v : LinkValidator) (p : Path)
    : result LinkValidator :=
  bind (path_is_file p) (fun b => Ok (process_file ord v (seen p b))).

Definition process_pattern (ord : list string) (fs : FileSystem) (v : LinkValidator)
    (ext : string) : result LinkValidator :=
  for_each (process_file ord) v (glob ext fs).

Definition process_all_files (ord : list string) (fs : FileSystem) (v : LinkValidator)
    : result LinkValidator :=
  for_each (process_pattern ord fs) v patterns.

(** The main block up to the report; [generate_report] calls only
    [glob]. *)
Definition run (ord : list string) (fs : FileSystem) : result Report :=
  bind (init fs) (fun validator =>
  bind (process_all_files ord fs validator) (fun validator =>
  Ok (generate_report (tree_of fs) validator))).

End Checked.

(** Whether one of the two patterns selects the path. *)
Definition matched (p : Path) : bool :=
  PyStr.endswith ".mdx" (Pathlib.name (path_rel p)) ||
  PyStr.endswith ".md" (Pathlib.name (path_rel p)).

(** Every call of [is_file()] that the run makes returns. *)
Definition calls_return (fs : FileSystem) : Prop :=
  ∀ p, p ∈ fs → matched p = true → ∃ b, path_is_file p = Ok b.

(** A root with a page in a directory that can be listed but not
    searched, next to a readable page. *)
Definition locked_fs : FileSystem :=
  [ {| path_rel := "index.md"; path_is_file := Ok true;
       path_read_text := Ok "[notes](private/notes.md)" |};
    {| path_rel := "private/notes.md";
       path_is_file := Raise "PermissionError";
       path_read_text := Raise "PermissionError" |} ].

(** A root with a page that cannot be decoded, next to a readable one. *)
Definition undecodable_fs : FileSystem :=
  [ {| path_rel := "index.md"; path_is_file := Ok true;
       path_read_text := Ok "[notes](notes.md)" |};
    {| path_rel := "notes.md"; path_is_file := Ok true;
       path_read_text := Raise "UnicodeDecodeError" |} ].

(** ** Two runs compared *)






(** The link [l] occurs at offset [k] of [content]: its raw match
    starts there and its line is counted from there. *)
Definition occurs_at (content : string) (k : nat) (l : Link) : Prop :=
  link_line l = PyStr.count "010" (PyStr.take k content) + 1 ∧
  ∃ post, PyStr.drop k content = link_raw_match l +:+ post.

(** * Properties *)

(** ** What a pass over the tree adds to the validator *)

Lemma after_links_nil ord v : after_links ord v [] = v.
Proof. destruct v; unfold after_links; simpl. by rewrite !app_nil_r. Qed.

Lemma after_links_app ord v ls1 ls2 :
  after_links ord (after_links ord v ls1) ls2 = after_links ord v (ls1 ++ ls2).
Proof.
  unfold after_links; simpl.
  by rewrite omap_app, !List.filter_app, !app_assoc.
Qed.

Lemma process_link_after ord v l : process_link ord v l = after_links ord v [l].
Proof.
  unfold process_link, after_links, broken_of, is_external, is_internal; simpl.
  destruct (is_internal_link (link_url l)); simpl;
    [destruct (valid (validate_internal_link ord (all_files v) l)); simpl|];
    by rewrite ?app_nil_r.
Qed.

Lemma process_links_after ord ls : ∀ v,
  foldl (process_link ord) v ls = after_links ord v ls.
Proof.
  induction ls as [|l ls IH]; intros v; simpl.
  - by rewrite after_links_nil.
  - by rewrite IH, process_link_after, after_links_app.
Qed.

Lemma process_files_after ord es : ∀ v,
  foldl (process_file ord) v es =
  after_links ord v (List.concat (List.map extract_links_from_file (List.filter is_file es))).
Proof.
  induction es as [|e es IH]; intros v; simpl.
  - by rewrite after_links_nil.
  - rewrite IH. unfold process_file. destruct (is_file e); simpl; [|done].
    by rewrite process_links_after, after_links_app.
Qed.

Lemma process_all_files_after ord t v :
  process_all_files ord t v = after_links ord v (extracted t).
Proof.
  unfold process_all_files, patterns, process_pattern, extracted, scanned_files; simpl.
  rewrite !process_files_after, after_links_app.
  by rewrite List.map_app, List.concat_app.
Qed.

(** ** String lemmas *)

Lemma string_app_nil_l (s : string) : "" +:+ s = s.
Proof. reflexivity. Qed.

Lemma string_app_cons (a : ascii) (s1 s2 : string) :
  String a s1 +:+ s2 = String a (s1 +:+ s2).
Proof. reflexivity. Qed.

Lemma startswith_app p s : PyStr.startswith p s = true ↔ ∃ r, s = p +:+ r.
Proof.
  unfold PyStr.startswith. revert s.
  induction p as [|a p IH]; intros s.
  - split; [intros _; exists s; reflexivity|]. by destruct s.
  - destruct s as [|b s]; simpl.
    + split; [done|]. by intros [r Hr].
    + destruct (ascii_dec a b) as [->|Hne].
      * rewrite IH. split; intros [r Hr]; exists r.
        -- by rewrite string_app_cons, Hr.
        -- rewrite string_app_cons in Hr. by injection Hr.
      * split; [done|]. intros [r Hr].
        rewrite string_app_cons in Hr. injection Hr as Hab _. by destruct Hne.
Qed.

Lemma split_go_item0 c s : ∀ cur,
  PyStr.item0 (PyStr.split_go c cur s) = String.rev_app cur (strip_from c s).
Proof.
  induction s as [|d s IH]; intros cur; simpl; [done|].
  destruct (Ascii.eqb d c); simpl; [done|]. by rewrite IH.
Qed.

Lemma split_item0 c s : PyStr.item0 (PyStr.split c s) = strip_from c s.
Proof. unfold PyStr.split. by rewrite split_go_item0. Qed.

Lemma startswith_dot_exclusive s :
  PyStr.startswith "./" s = true → PyStr.startswith "../" s = false.
Proof.
  intros [r ->]%startswith_app. done.
Qed.

(** C2: [normalize_internal_path] strips the fragment, then the
    query; returns a remainder that starts with dot-dot-slash as it
    is; otherwise drops a leading dot-slash and appends [.mdx] unless
    the path ends in one of the seven known extensions. *)
Theorem normalize_internal_path_spec (url : string) :
  normalize_internal_path url = normalize_spec url.
Proof.
  unfold normalize_internal_path, normalize_spec.
  rewrite !split_item0.
  set (r := strip_from "?" (strip_from "#" url)).
  destruct (PyStr.startswith "./" r) eqn:Hdot.
  - rewrite (startswith_dot_exclusive _ Hdot).
    by destruct (PyStr.endswith_any known_extensions (PyStr.drop 2 r)).
  - destruct (PyStr.startswith "../" r); [done|].
    by destruct (PyStr.endswith_any known_extensions r).
Qed.

(** ** Classification *)

Lemma is_internal_link_false url :
  is_internal_link url = false ↔
  ∃ p, p ∈ external_prefixes ∧ PyStr.startswith p url = true.
Proof.
  unfold is_internal_link, PyStr.startswith_any, external_prefixes; simpl.
  rewrite !orb_false_r. split.
  - intros H.
    destruct (PyStr.startswith "http://" url) eqn:E1;
      [exists "http://"; split; [apply list_elem_of_In; simpl; tauto|done]|].
    destruct (PyStr.startswith "https://" url) eqn:E2;
      [exists "https://"; split; [apply list_elem_of_In; simpl; tauto|done]|].
    destruct (PyStr.startswith "mailto:" url) eqn:E3;
      [exists "mailto:"; split; [apply list_elem_of_In; simpl; tauto|done]|].
    destruct (PyStr.startswith "tel:" url) eqn:E4;
      [exists "tel:"; split; [apply list_elem_of_In; simpl; tauto|done]|].
    destruct (PyStr.startswith "ftp:" url) eqn:E5;
      [exists "ftp:"; split; [apply list_elem_of_In; simpl; tauto|done]|].
    done.
  - intros (p & Hp & Hs).
    repeat (apply elem_of_cons in Hp as [->|Hp];
      [rewrite Hs; by repeat destruct (PyStr.startswith _ url)|]).
    by apply elem_of_nil in Hp.
Qed.

Lemma filter_partition_perm {A} (f : A → bool) (l : list A) :
  l ≡ₚ List.filter (fun x => negb (f x)) l ++ List.filter f l.
Proof.
  induction l as [|x l IH]; simpl; [done|].
  destruct (f x); simpl.
  - by rewrite <-Permutation_middle, <-IH.
  - by rewrite <-IH.
Qed.

(** C3: a link is external exactly when its url begins with one of
    the five scheme prefixes; after a pass every extracted link is in
    [links_found], the external ones are exactly the external list,
    the others are exactly the arguments of the validator's calls, and
    no external link was ever passed to the validator. *)
Theorem classification_partitions_links (ord : list string) (t : Tree) :
  let v := process_all_files ord t (init t) in
  (∀ url, is_internal_link url = false ↔
          ∃ p rest, p ∈ external_prefixes ∧ url = p +:+ rest) ∧
  links_found v = extracted t ∧
  external_links v =
    List.filter (fun l => negb (is_internal_link (link_url l))) (links_found v) ∧
  validate_calls v =
    List.filter (fun l => is_internal_link (link_url l)) (links_found v) ∧
  (∀ l, l ∈ external_links v → l ∉ validate_calls v) ∧
  links_found v ≡ₚ external_links v ++ validate_calls v.
Proof.
  intros v. unfold v. rewrite process_all_files_after.
  unfold after_links, init; simpl.
  split; [|split; [done|split; [done|split; [done|split]]]].
  - intros url. rewrite is_internal_link_false.
    split.
    + intros (p & Hp & [r Hr]%startswith_app). by exists p, r.
    + intros (p & r & Hp & Hr). exists p. split; [done|].
      apply startswith_app. by exists r.
  - intros l Hext Hint.
    apply list_elem_of_In, List.filter_In in Hext as [_ Hext].
    apply list_elem_of_In, List.filter_In in Hint as [_ Hint].
    unfold is_external, is_internal in *. by rewrite Hint in Hext.
  - apply (filter_partition_perm is_internal).
Qed.

(** ** Counts and the fix list *)

(** C7: the list of applied fixes is empty after construction, after
    the pass over the files and in the report, whose summary counts
    zero fixes. *)
Theorem fixes_applied_always_empty (ord : list string) (t : Tree) :
  fixes_applied (init t) = [] ∧
  fixes_applied (process_all_files ord t (init t)) = [] ∧
  report_fixes_applied (run ord t) = [] ∧
  summary_fixes_applied (summary (run ord t)) = 0.
Proof.
  unfold run. rewrite process_all_files_after. by unfold generate_report, after_links, init.
Qed.

Lemma length_omap_le {A B} (f : A → option B) (l : list A) (p : A → bool) :
  (∀ x, is_Some (f x) → p x = true) →
  length (omap f l) ≤ length (List.filter p l).
Proof.
  intros Hf. induction l as [|x l IH]; [done|].
  cbn [omap list_omap List.filter]. destruct (f x) eqn:E.
  - rewrite (Hf x) by (by rewrite E). cbn [length]. lia.
  - destruct (p x); cbn [length]; lia.
Qed.

(** C10: in the summary of a report the internal and the external
    count add up to the total, and the broken count is at most the
    internal count. *)
Theorem summary_counts_consistent (ord : list string) (t : Tree) :
  let s := summary (run ord t) in
  internal_links s + summary_external_links s = total_links_found s ∧
  broken_internal_links s ≤ internal_links s.
Proof.
  unfold run. rewrite process_all_files_after.
  unfold generate_report, after_links, init; simpl. split.
  - pose proof (Permutation_length (filter_partition_perm is_internal (extracted t))) as H.
    rewrite length_app in H. unfold is_internal, is_external in *. lia.
  - apply length_omap_le. intros l [b Hb]. unfold broken_of, is_internal in Hb.
    by destruct (is_internal_link (link_url l)).
Qed.

(** ** Unreadable files *)

Lemma extract_unreadable e msg :
  read_text e = Raise msg → extract_links_from_file e = [].
Proof. intros H. unfold extract_links_from_file. by rewrite H. Qed.

Lemma extract_blank e :
  extract_links_from_file (blank_unreadable e) = extract_links_from_file e.
Proof.
  unfold blank_unreadable, readable.
  destruct (read_text e) eqn:E; [done|].
  unfold extract_links_from_file; simpl. by rewrite E.
Qed.

Lemma rel_blank e : rel (blank_unreadable e) = rel e.
Proof. unfold blank_unreadable. by destruct (readable e). Qed.

Lemma is_file_blank e : is_file (blank_unreadable e) = is_file e.
Proof. unfold blank_unreadable. by destruct (readable e). Qed.

Lemma filter_map_comm {A} (p : A → bool) (g : A → A) (l : list A) :
  (∀ x, p (g x) = p x) →
  List.filter p (List.map g l) = List.map g (List.filter p l).
Proof.
  intros Hp. induction l as [|x l IH]; simpl; [done|].
  rewrite Hp. destruct (p x); simpl; by rewrite IH.
Qed.

Lemma glob_blank ext t :
  Pathlib.glob ext (List.map blank_unreadable t) =
  List.map blank_unreadable (Pathlib.glob ext t).
Proof.
  unfold Pathlib.glob. apply filter_map_comm. intros e. by rewrite rel_blank.
Qed.

Lemma index_add_blank idx e : index_add idx (blank_unreadable e) = index_add idx e.
Proof. unfold index_add. by rewrite is_file_blank, rel_blank. Qed.

Lemma foldl_index_add_blank es : ∀ idx,
  foldl index_add idx (List.map blank_unreadable es) = foldl index_add idx es.
Proof.
  induction es as [|e es IH]; intros idx; simpl; [done|].
  by rewrite index_add_blank, IH.
Qed.

Lemma build_file_index_blank t idx :
  _build_file_index (List.map blank_unreadable t) idx = _build_file_index t idx.
Proof.
  unfold _build_file_index, index_pattern; simpl.
  by rewrite !glob_blank, !foldl_index_add_blank.
Qed.

Lemma scanned_files_blank t :
  scanned_files (List.map blank_unreadable t) = List.map blank_unreadable (scanned_files t).
Proof.
  unfold scanned_files. rewrite !glob_blank, List.map_app.
  by rewrite !(filter_map_comm is_file blank_unreadable) by apply is_file_blank.
Qed.

Lemma extracted_blank t : extracted (List.map blank_unreadable t) = extracted t.
Proof.
  unfold extracted. rewrite scanned_files_blank, List.map_map.
  f_equal. apply List.map_ext. intros e. apply extract_blank.
Qed.

Lemma concat_filter_nil {A B} (f : A → list B) (p : A → bool) (l : list A) :
  (∀ x, p x = false → f x = []) →
  List.concat (List.map f (List.filter p l)) = List.concat (List.map f l).
Proof.
  intros Hf. induction l as [|x l IH]; simpl; [done|].
  destruct (p x) eqn:E; simpl; rewrite IH; [done|]. by rewrite (Hf x E).
Qed.

(** ** The file index and the lookup *)

Lemma elem_of_index_add s idx e :
  s ∈ index_add idx e ↔
  s ∈ idx ∨ (is_file e = true ∧ s ∈ index_variants (rel e)).
Proof.
  unfold index_add, index_variants. destruct (is_file e).
  - rewrite !elem_of_union, !elem_of_singleton, !elem_of_cons, elem_of_nil. tauto.
  - split; [by left|]. by intros [?|[??]].
Qed.

Lemma elem_of_foldl_index_add s es : ∀ idx,
  s ∈ foldl index_add idx es ↔
  s ∈ idx ∨ ∃ e, e ∈ es ∧ is_file e = true ∧ s ∈ index_variants (rel e).
Proof.
  induction es as [|e es IH]; intros idx; simpl.
  - split; [by left|]. intros [?|(e & He & _)]; [done|]. by apply elem_of_nil in He.
  - rewrite IH, elem_of_index_add. split.
    + intros [[?|[??]]|(e' & ? & ? & ?)]; [by left|right; exists e|right; exists e'];
        (split; [|done]); [left|by right].
    + intros [?|(e' & [->|?]%elem_of_cons & ? & ?)]; [by left; left|by left; right|].
      right. by exists e'.
Qed.

Lemma elem_of_glob e ext t :
  e ∈ Pathlib.glob ext t ↔ e ∈ t ∧ PyStr.endswith ext (Pathlib.name (rel e)) = true.
Proof. unfold Pathlib.glob. by rewrite !list_elem_of_In, List.filter_In. Qed.

Lemma elem_of_build_file_index s t :
  s ∈ _build_file_index t ∅ ↔
  ∃ e, documentation_file t e ∧ s ∈ index_variants (rel e).
Proof.
  unfold _build_file_index, index_pattern, documentation_file; simpl.
  rewrite !elem_of_foldl_index_add. split.
  - intros [[H|(e & [??]%elem_of_glob & ? & ?)]|(e & [??]%elem_of_glob & ? & ?)].
    + by apply not_elem_of_empty in H.
    + exists e. tauto.
    + exists e. tauto.
  - intros (e & (? & ? & [?|?]) & ?).
    + left; right. exists e. by rewrite elem_of_glob.
    + right. exists e. by rewrite elem_of_glob.
Qed.

Lemma first_indexed_is_Some idx paths :
  is_Some (first_indexed idx paths) ↔ ∃ p, p ∈ paths ∧ p ∈ idx.
Proof.
  unfold first_indexed. split.
  - intros [p Hp]. apply List.find_some in Hp as [Hin Hdec].
    exists p. split; [by apply list_elem_of_In|]. by apply bool_decide_eq_true in Hdec.
  - intros (p & Hin & Hidx).
    destruct (List.find _ paths) eqn:E; [done|].
    apply list_elem_of_In in Hin.
    pose proof (List.find_none _ _ E p Hin) as Hn; simpl in Hn.
    by apply bool_decide_eq_false in Hn.
Qed.

Lemma validate_valid ord idx link :
  valid (validate_internal_link ord idx link) = true ↔
  ∃ p, p ∈ possible_paths (normalize_internal_path (link_url link)) ∧ p ∈ idx.
Proof.
  rewrite <-first_indexed_is_Some. unfold validate_internal_link.
  destruct (first_indexed idx _); simpl; split; try done.
Qed.

(** C1: a link is declared valid exactly when one of the five
    candidates built from its normalized path is in the index, and the
    index holds exactly the four variants of every [.mdx] or [.md]
    file under the root; the pass over the files leaves the index as
    it was built. *)
Theorem valid_iff_candidate_indexed (ord : list string) (t : Tree) (link : Link) :
  let idx := all_files (init t) in
  let n := normalize_internal_path (link_url link) in
  all_files (process_all_files ord t (init t)) = idx ∧
  (valid (validate_internal_link ord idx link) = true ↔
     n ∈ idx ∨ PyStr.lstrip "/" n ∈ idx ∨ "/" +:+ PyStr.lstrip "/" n ∈ idx ∨
     n +:+ ".mdx" ∈ idx ∨ n +:+ ".md" ∈ idx) ∧
  (∀ s, s ∈ idx ↔
     ∃ e, documentation_file t e ∧
          (s = rel e ∨ s = Pathlib.with_suffix_empty (rel e) ∨
           s = "/" +:+ rel e ∨ s = "/" +:+ Pathlib.with_suffix_empty (rel e))).
Proof.
  intros idx n. split; [by rewrite process_all_files_after|split].
  - rewrite validate_valid. fold n. unfold possible_paths. split.
    + intros (p & Hp & Hidx).
      rewrite !elem_of_cons, elem_of_nil in Hp.
      destruct Hp as [->|[->|[->|[->|[->|[]]]]]]; tauto.
    + intros H.
      assert (∀ p, p ∈ idx → In p (possible_paths n) → ∃ p, p ∈ possible_paths n ∧ p ∈ idx)
        as Hex by (intros p ? ?%list_elem_of_In; by exists p).
      destruct H as [H|[H|[H|[H|H]]]]; apply (Hex _ H); simpl; tauto.
  - intros s. unfold idx, init; simpl. rewrite elem_of_build_file_index.
    split; intros (e & Hd & Hs); exists e; (split; [done|]);
      unfold index_variants in *; rewrite !elem_of_cons, elem_of_nil in *; tauto.
Qed.

(** ** Letter case *)

Lemma length_lower s : String.length (PyStr.lower s) = String.length s.
Proof. induction s as [|c s IH]; simpl; by rewrite ?IH. Qed.

Lemma lower_app s1 s2 : PyStr.lower (s1 +:+ s2) = PyStr.lower s1 +:+ PyStr.lower s2.
Proof.
  induction s1 as [|c s1 IH]; [done|].
  rewrite string_app_cons. simpl. by rewrite IH.
Qed.

Lemma take_app_length s1 s2 : PyStr.take (String.length s1) (s1 +:+ s2) = s1.
Proof.
  induction s1 as [|c s1 IH]; [by destruct s2|].
  rewrite string_app_cons. simpl. by rewrite IH.
Qed.

Lemma drop_app_length s1 s2 : PyStr.drop (String.length s1) (s1 +:+ s2) = s2.
Proof. induction s1 as [|c s1 IH]; [done|]. by rewrite string_app_cons. Qed.

(** Two prefixes of one string: one is a prefix of the other. *)
Lemma app_eq_comparable p q : ∀ a b,
  p +:+ a = q +:+ b → PyStr.startswith p q = true ∨ PyStr.startswith q p = true.
Proof.
  revert q. induction p as [|c p IH]; intros q a b H.
  - left. by destruct q.
  - destruct q as [|d q]; [by right|].
    rewrite !string_app_cons in H. injection H as Hc Ht. subst d.
    unfold PyStr.startswith in *. simpl.
    destruct (ascii_dec c c); [|done]. by apply IH with a b.
Qed.

Lemma app_eq_same_length p q : ∀ a b,
  String.length p = String.length q → p +:+ a = q +:+ b → p = q.
Proof.
  revert q. induction p as [|c p IH]; intros [|d q] a b Hlen H; try done.
  rewrite !string_app_cons in H. injection H as Hc Ht. subst d.
  f_equal. apply IH with a b; [|done]. by injection Hlen.
Qed.

Lemma external_prefixes_lower p : p ∈ external_prefixes → PyStr.lower p = p.
Proof.
  unfold external_prefixes. intros Hp.
  rewrite !elem_of_cons, elem_of_nil in Hp.
  destruct Hp as [->|[->|[->|[->|[->|[]]]]]]; reflexivity.
Qed.

Lemma external_prefixes_incomparable p q :
  p ∈ external_prefixes → q ∈ external_prefixes →
  PyStr.startswith p q = true → p = q.
Proof.
  unfold external_prefixes. intros Hp Hq Hpre.
  rewrite !elem_of_cons, elem_of_nil in Hp, Hq.
  destruct Hp as [->|[->|[->|[->|[->|[]]]]]];
    destruct Hq as [->|[->|[->|[->|[->|[]]]]]];
    first [reflexivity | by vm_compute in Hpre].
Qed.

Lemma mixed_case_scheme_internal p p' rest :
  p ∈ external_prefixes → PyStr.lower p' = p → p' ≠ p →
  is_internal_link (p' +:+ rest) = true.
Proof.
  intros Hp Hlow Hne.
  destruct (is_internal_link (p' +:+ rest)) eqn:E; [done|].
  apply is_internal_link_false in E as (q & Hq & [r Hr]%startswith_app).
  assert (p +:+ PyStr.lower rest = q +:+ PyStr.lower r) as Heq.
  { rewrite <-Hlow, <-(external_prefixes_lower q Hq), <-!lower_app. by f_equal. }
  assert (p = q) as <-.
  { destruct (app_eq_comparable _ _ _ _ Heq) as [H|H].
    - by apply external_prefixes_incomparable.
    - symmetry. by apply external_prefixes_incomparable. }
  destruct Hne. apply app_eq_same_length with rest r; [|done].
  by rewrite <-Hlow, length_lower.
Qed.

Lemma lower_char_idemp c : PyStr.lower_char (PyStr.lower_char c) = PyStr.lower_char c.
Proof. destruct c as [[] [] [] [] [] [] [] []]; reflexivity. Qed.

Lemma lower_idemp s : PyStr.lower (PyStr.lower s) = PyStr.lower s.
Proof. induction s as [|c s IH]; simpl; by rewrite ?lower_char_idemp, ?IH. Qed.

Lemma match_attr_ignores_case attr h rest :
  PyStr.lower h = attr +:+ "=" →
  Re.match_attr attr (h +:+ rest) = Re.match_attr attr ((attr +:+ "=") +:+ rest).
Proof.
  intros Hh. unfold Re.match_attr.
  assert (String.length attr + 1 = String.length (attr +:+ "=")) as ->.
  { clear. induction attr as [|c attr IH]; [reflexivity|].
    rewrite string_app_cons. simpl in *. lia. }
  rewrite (take_app_length (attr +:+ "=")), (drop_app_length (attr +:+ "=")).
  assert (String.length (attr +:+ "=") = String.length h) as ->
    by (by rewrite <-Hh, length_lower).
  rewrite take_app_length, drop_app_length.
  by rewrite <-Hh, lower_idemp.
Qed.

(** C9: the scheme prefixes are compared with regard to case, while
    the attribute patterns are matched without: a link whose url
    begins with a scheme prefix written with some upper-case letter is
    classified internal, is passed to the validator and is not in the
    external list. *)
Theorem mixed_case_scheme_is_validated
    (ord : list string) (t : Tree) (l : Link) (p p' rest : string) :
  p ∈ external_prefixes → PyStr.lower p' = p → p' ≠ p →
  link_url l = p' +:+ rest → l ∈ extracted t →
  let v := process_all_files ord t (init t) in
  (∀ attr h s, PyStr.lower h = attr +:+ "=" →
     Re.match_attr attr (h +:+ s) = Re.match_attr attr ((attr +:+ "=") +:+ s)) ∧
  is_internal_link (link_url l) = true ∧
  l ∈ validate_calls v ∧
  l ∉ external_links v.
Proof.
  intros Hp Hlow Hne Hurl Hin v.
  assert (is_internal_link (link_url l) = true) as Hint
    by (rewrite Hurl; by apply mixed_case_scheme_internal with p).
  split; [apply match_attr_ignores_case|split; [done|]].
  unfold v. rewrite process_all_files_after. unfold after_links, init; simpl. split.
  - apply list_elem_of_In, List.filter_In. split; [by apply list_elem_of_In|done].
  - intros [_ Hext]%list_elem_of_In%List.filter_In.
    unfold is_external in Hext. by rewrite Hint in Hext.
Qed.

Lemma mixed_case_scheme_is_validated_witness :
  extracted upper_scheme_tree = [upper_scheme_link] ∧
  is_internal_link (link_url upper_scheme_link) = true ∧
  upper_scheme_link ∈
    validate_calls (process_all_files [] upper_scheme_tree (init upper_scheme_tree)) ∧
  upper_scheme_link ∉
    external_links (process_all_files [] upper_scheme_tree (init upper_scheme_tree)).
Proof.
  split; [reflexivity|].
  apply (mixed_case_scheme_is_validated [] upper_scheme_tree upper_scheme_link
           "http://" "HTTP://" "example.com").
  - vm_compute. constructor.
  - reflexivity.
  - discriminate.
  - reflexivity.
  - vm_compute. constructor.
Defined.

(** ** [difflib]: the matching blocks stay inside their region *)

Section matcher_bounds.
Variables a b : list ascii.

Lemma j2len_prev_below m j2len j :
  lengths_below m j2len → Difflib.j2len_prev j2len j ≤ m.
Proof.
  intros H. destruct j as [|j]; simpl; [lia|].
  destruct (j2len !! j) as [k|] eqn:E; simpl; [by apply (H j)|lia].
Qed.

Lemma scan_row_within alo i blo bhi j2len js : ∀ newj2len best,
  alo ≤ i →
  lengths_below (i - alo) j2len →
  lengths_below (S i - alo) newj2len →
  block_within alo (S i) best →
  let r := Difflib.scan_row i blo bhi j2len js newj2len best in
  lengths_below (S i - alo) r.1 ∧ block_within alo (S i) r.2.
Proof.
  induction js as [|j js IH]; intros newj2len best Hi Hold Hnew Hbest; simpl; [done|].
  destruct (j <? blo); [by apply IH|].
  destruct (bhi <=? j); [done|].
  pose proof (j2len_prev_below _ _ j Hold) as Hk.
  apply IH; [done..| |].
  - intros j' k'. rewrite lookup_insert. case_decide; [|by apply Hnew].
    intros [= <-]. lia.
  - destruct (best.2 <? _); [|done].
    unfold block_within; simpl. lia.
Qed.

Lemma scan_rows_within alo blo bhi n : ∀ i st,
  alo ≤ i →
  lengths_below (i - alo) st.1 →
  block_within alo i st.2 →
  block_within alo (i + n) (foldl (Difflib.scan_step a b blo bhi) st (seq i n)).2.
Proof.
  induction n as [|n IH]; intros i st Hi Hlen Hbest; simpl.
  - by rewrite Nat.add_0_r.
  - replace (i + S n) with (S i + n) by lia.
    unfold Difflib.scan_step at 2.
    assert (lengths_below (S i - alo) (∅ : gmap nat nat)) as Hnew
      by (intros j k; by rewrite lookup_empty).
    assert (block_within alo (S i) st.2) as Hbest1
      by (destruct Hbest; split; lia).
    destruct (scan_row_within alo i blo bhi st.1
                (match a !! i with Some c => Difflib.b2j b c | None => [] end)
                ∅ st.2 Hi Hlen Hnew Hbest1) as [Hlen' Hbest'].
    apply IH; [lia|done..].
Qed.

Lemma extend_left_within alo blo hi besti : ∀ bestj bestsize,
  block_within alo hi (besti, bestj, bestsize) →
  block_within alo hi (Difflib.extend_left a b alo blo besti bestj bestsize).
Proof.
  induction besti as [|i IH]; intros bestj bestsize Hb; simpl; [done|].
  destruct bestj as [|j]; [done|].
  destruct (_ && _) eqn:E; [|done].
  apply IH. apply andb_prop in E as [[Halo _]%andb_prop _].
  apply Nat.ltb_lt in Halo. unfold block_within in *; simpl in *. lia.
Qed.

Lemma extend_right_le bhi besti bestj n : ∀ bestsize,
  Difflib.extend_right a b bhi besti bestj n bestsize ≤ bestsize + n.
Proof.
  induction n as [|n IH]; intros bestsize; simpl; [lia|].
  destruct (_ && _); [|lia]. specialize (IH (S bestsize)). lia.
Qed.

Lemma extend_right_ge bhi besti bestj n : ∀ bestsize,
  bestsize ≤ Difflib.extend_right a b bhi besti bestj n bestsize.
Proof.
  induction n as [|n IH]; intros bestsize; simpl; [lia|].
  destruct (_ && _); [|lia]. specialize (IH (S bestsize)). lia.
Qed.

Lemma find_longest_match_within alo ahi blo bhi :
  alo ≤ ahi →
  block_within alo ahi (Difflib.find_longest_match a b alo ahi blo bhi).
Proof.
  intros Hle. unfold Difflib.find_longest_match.
  pose proof (scan_rows_within alo blo bhi (ahi - alo) alo (∅, (alo, blo, 0))) as H.
  replace (alo + (ahi - alo)) with ahi in H by lia.
  destruct (foldl _ _ _).2 as [[i j] k] eqn:E.
  assert (block_within alo ahi (i, j, k)) as Hb.
  { apply H; [done| |by unfold block_within; simpl; lia].
    intros ??; simpl. by rewrite lookup_empty. }
  apply (extend_left_within alo blo) in Hb.
  destruct (Difflib.extend_left a b alo blo i j k) as [[i' j'] k'].
  pose proof (extend_right_le bhi i' j' (ahi - (i' + k')) k').
  unfold block_within in *; simpl in *. lia.
Qed.

(** More fuel than the region has rows in [a] is enough: the result
    no longer depends on the amount. *)
Lemma matches_region_fuel fuel : ∀ fuel' alo ahi blo bhi,
  alo ≤ ahi → ahi - alo < fuel → ahi - alo < fuel' →
  Difflib.matches_region a b fuel alo ahi blo bhi =
  Difflib.matches_region a b fuel' alo ahi blo bhi.
Proof.
  induction fuel as [|fuel IH]; intros fuel' alo ahi blo bhi Hle Hf Hf'; [lia|].
  destruct fuel' as [|fuel']; [lia|]. simpl.
  pose proof (find_longest_match_within alo ahi blo bhi Hle) as Hb.
  destruct (Difflib.find_longest_match a b alo ahi blo bhi) as [[i j] k].
  unfold block_within in Hb; simpl in Hb.
  destruct (k =? 0) eqn:Hk; [done|]. apply Nat.eqb_neq in Hk.
  f_equal; [f_equal|].
  - destruct (_ && _) eqn:E; [|done].
    apply IH; lia.
  - destruct (_ && _) eqn:E; [|done].
    apply andb_prop in E as [E%Nat.ltb_lt _].
    apply IH; lia.
Qed.

Lemma matches_fuel fuel :
  length a < fuel →
  Difflib.matches_region a b fuel 0 (length a) 0 (length b) = Difflib.matches a b.
Proof. intros H. unfold Difflib.matches. apply matches_region_fuel; lia. Qed.
End matcher_bounds.

(** ** [difflib]: the close matches do not depend on the order of the
    possibilities *)

Lemma tuple_le_alt t1 t2 :
  Difflib.tuple_le t1 t2 ↔
  (t1.1 < t2.1)%Q ∨ ((t1.1 == t2.1)%Q ∧ String.le t1.2 t2.2).
Proof.
  unfold Difflib.tuple_le.
  destruct (Qcompare_spec t1.1 t2.1) as [He|Hl|Hg].
  - split; [by right|]. intros [Hl|[_ ?]]; [|done].
    rewrite He in Hl. by apply Qlt_irrefl in Hl.
  - split; [by left|done].
  - split; [done|]. intros [Hl|[He _]].
    + by apply (Qlt_irrefl t1.1), Qlt_trans with t2.1.
    + rewrite He in Hg. by apply Qlt_irrefl in Hg.
Qed.

#[global] Instance tuple_ge_trans : Transitive Difflib.tuple_ge.
Proof.
  intros t3 t2 t1. unfold Difflib.tuple_ge, flip. rewrite !tuple_le_alt.
  intros [H23|[E23 L23]] [H12|[E12 L12]].
  - left. by apply Qlt_trans with t2.1.
  - left. by rewrite E12.
  - left. by rewrite <-E23.
  - right. split; [by rewrite E12|]. by trans t2.2.
Qed.

#[global] Instance tuple_ge_total : Total Difflib.tuple_ge.
Proof.
  intros t1 t2. unfold Difflib.tuple_ge, flip. rewrite !tuple_le_alt.
  destruct (Qcompare_spec t1.1 t2.1) as [He|Hl|Hg].
  - destruct (total String.le t1.2 t2.2); [right|left]; right; by split.
  - right. by left.
  - left. by left.
Qed.

Lemma tuple_ge_antisym_score (f : string → Q) t1 t2 :
  t1.1 = f t1.2 → t2.1 = f t2.2 →
  Difflib.tuple_ge t1 t2 → Difflib.tuple_ge t2 t1 → t1 = t2.
Proof.
  destruct t1 as [s1 x1], t2 as [s2 x2]; simpl. intros -> ->.
  unfold Difflib.tuple_ge, flip. rewrite !tuple_le_alt; simpl.
  intros [H1|[E1 L1]] [H2|[E2 L2]].
  - by destruct (Qlt_irrefl (f x1)); apply Qlt_trans with (f x2).
  - rewrite E2 in H1. by apply Qlt_irrefl in H1.
  - rewrite E1 in H2. by apply Qlt_irrefl in H2.
  - by rewrite (anti_symm String.le x1 x2).
Qed.

Lemma filter_Permutation_std {A} (f : A → bool) (l1 l2 : list A) :
  l1 ≡ₚ l2 → List.filter f l1 ≡ₚ List.filter f l2.
Proof.
  induction 1 as [|x l1 l2 _ IH|x y l|l1 l2 l3 _ IH1 _ IH2]; simpl.
  - done.
  - destruct (f x); by rewrite IH.
  - destruct (f x), (f y); by try apply perm_swap.
  - by rewrite IH1.
Qed.

Lemma scored_elem word l t : t ∈ Difflib.scored word l →
  t.1 = Difflib.ratio (Difflib.seq_of t.2) (Difflib.seq_of word).
Proof.
  unfold Difflib.scored. intros Ht%list_elem_of_In%List.in_map_iff.
  by destruct Ht as (x & <- & _).
Qed.

Lemma get_close_matches_perm word l1 l2 :
  l1 ≡ₚ l2 → Difflib.get_close_matches word l1 = Difflib.get_close_matches word l2.
Proof.
  intros Hp. unfold Difflib.get_close_matches, Difflib.nlargest. do 2 f_equal.
  assert (Difflib.scored word l1 ≡ₚ Difflib.scored word l2) as Hs.
  { unfold Difflib.scored. by apply Permutation_map, filter_Permutation_std. }
  apply (Sorted_unique_strong Difflib.tuple_ge).
  - intros t1 t2 H1 H2.
    rewrite merge_sort_Permutation in H1, H2.
    apply (tuple_ge_antisym_score
             (fun x => Difflib.ratio (Difflib.seq_of x) (Difflib.seq_of word)));
      by eapply scored_elem.
  - apply Sorted_merge_sort, _.
  - apply Sorted_merge_sort, _.
  - by rewrite !merge_sort_Permutation.
Qed.

(** ** The suggestion *)

Lemma original_case_elem ord m f :
  original_case ord m = Some f → f ∈ ord ∧ PyStr.lower f = m.
Proof.
  unfold original_case. intros [Hin Heq]%List.find_some.
  split; [by apply list_elem_of_In|]. by apply String.eqb_eq.
Qed.

Lemma original_case_None ord m :
  original_case ord m = None → ∀ f, f ∈ ord → PyStr.lower f ≠ m.
Proof.
  unfold original_case. intros Hn f Hf%list_elem_of_In.
  pose proof (List.find_none _ _ Hn f Hf) as H; simpl in H.
  by apply String.eqb_neq.
Qed.

Lemma original_case_perm ord1 ord2 m :
  ord1 ≡ₚ ord2 → case_distinct ord1 →
  original_case ord1 m = original_case ord2 m.
Proof.
  intros Hp Hd.
  destruct (original_case ord1 m) as [f|] eqn:E1,
           (original_case ord2 m) as [g|] eqn:E2; [| | |done].
  - apply original_case_elem in E1 as [Hf Hlf], E2 as [Hg Hlg].
    f_equal. apply Hd; [done|by rewrite Hp|by rewrite Hlf, Hlg].
  - apply original_case_elem in E1 as [Hf Hlf].
    rewrite Hp in Hf. by destruct (original_case_None _ _ E2 f Hf).
  - apply original_case_elem in E2 as [Hg Hlg].
    rewrite <-Hp in Hg. by destruct (original_case_None _ _ E1 g Hg).
Qed.

Lemma find_closest_match_perm ord1 ord2 target :
  ord1 ≡ₚ ord2 → case_distinct ord1 →
  find_closest_match ord1 target = find_closest_match ord2 target.
Proof.
  intros Hp Hd. unfold find_closest_match.
  rewrite (get_close_matches_perm _ (List.map PyStr.lower ord1) (List.map PyStr.lower ord2))
    by by apply Permutation_map.
  destruct (Difflib.get_close_matches _ _); [done|]. by apply original_case_perm.
Qed.


Lemma validate_internal_link_perm ord1 ord2 idx link :
  ord1 ≡ₚ ord2 → case_distinct ord1 →
  validate_internal_link ord1 idx link = validate_internal_link ord2 idx link.
Proof.
  intros Hp Hd. unfold validate_internal_link.
  destruct (first_indexed idx _); [done|]. by rewrite (find_closest_match_perm ord1 ord2).
Qed.

Lemma run_perm ord1 ord2 t :
  ord1 ≡ₚ ord2 → case_distinct ord1 → run ord1 t = run ord2 t.
Proof.
  intros Hp Hd. unfold run. rewrite !process_all_files_after.
  unfold generate_report, after_links; simpl.
  assert (omap (broken_of ord1 (_build_file_index t ∅)) (extracted t) =
          omap (broken_of ord2 (_build_file_index t ∅)) (extracted t)) as ->; [|done].
  induction (extracted t) as [|l ls IH]; [done|].
  cbn [omap list_omap]. rewrite IH. unfold broken_of.
  by rewrite (validate_internal_link_perm ord1 ord2).
Qed.

(** ** Index entries are not empty *)

Lemma length_drop n : ∀ s, String.length (PyStr.drop n s) = String.length s - n.
Proof. induction n as [|n IH]; intros [|c s]; simpl; by rewrite ?IH. Qed.

Lemma length_name p : String.length (Pathlib.name p) ≤ String.length p.
Proof.
  unfold Pathlib.name. destruct (PyStr.rfind "/" p); [|done].
  rewrite length_drop. lia.
Qed.

Lemma length_suffix p : p ≠ "" → String.length (Pathlib.suffix p) < String.length p.
Proof.
  intros Hp. assert (0 < String.length p) as Hlen by (destruct p; [done|simpl; lia]).
  unfold Pathlib.suffix. pose proof (length_name p) as Hn.
  destruct (PyStr.rfind "." (Pathlib.name p)) as [i|]; [|done].
  destruct (_ && _) eqn:E; [|done].
  apply andb_prop in E as [Hi%Nat.ltb_lt Hj%Nat.ltb_lt].
  rewrite length_drop. lia.
Qed.

Lemma with_suffix_empty_nonempty p : p ≠ "" → Pathlib.with_suffix_empty p ≠ "".
Proof.
  intros Hp. unfold Pathlib.with_suffix_empty.
  pose proof (length_suffix p Hp) as Hs.
  destruct (String.length p - String.length (Pathlib.suffix p)) eqn:E; [lia|].
  by destruct p.
Qed.

Lemma documentation_file_rel_nonempty t e : documentation_file t e → rel e ≠ "".
Proof.
  intros (_ & _ & H) Hrel. rewrite Hrel in H. by destruct H.
Qed.

Lemma index_entry_nonempty t s : s ∈ _build_file_index t ∅ → s ≠ "".
Proof.
  intros (e & He & Hs)%elem_of_build_file_index.
  apply documentation_file_rel_nonempty in He.
  unfold index_variants in Hs. rewrite !elem_of_cons, elem_of_nil in Hs.
  destruct Hs as [->|[->|[->|[->|[]]]]]; [done| |done..].
  by apply with_suffix_empty_nonempty.
Qed.

(** ** Broken-link records *)

Lemma elem_of_broken_links ord t b :
  b ∈ broken_links (process_all_files ord t (init t)) ↔
  ∃ l, l ∈ extracted t ∧ broken_of ord (all_files (init t)) l = Some b.
Proof.
  rewrite process_all_files_after. unfold after_links; simpl.
  by rewrite list_elem_of_omap.
Qed.

Lemma filter_nil_std {A} (f : A → bool) (l : list A) :
  (∀ x, x ∈ l → f x = false) → List.filter f l = [].
Proof.
  induction l as [|x l IH]; intros H; simpl; [done|].
  rewrite (H x) by constructor. apply IH. intros y Hy. apply H. by constructor.
Qed.


(** ** The order of the index *)

Lemma case_distinctb_correct l : case_distinctb l = true → case_distinct l.
Proof.
  unfold case_distinctb, case_distinct. rewrite forallb_forall.
  intros H f g Hf%list_elem_of_In Hg%list_elem_of_In Hlow.
  specialize (H f Hf). rewrite forallb_forall in H. specialize (H g Hg).
  rewrite Hlow, String.eqb_refl in H. by apply String.eqb_eq.
Qed.

Lemma case_distinct_perm l1 l2 : l1 ≡ₚ l2 → case_distinct l1 → case_distinct l2.
Proof. intros Hp H f g Hf Hg. rewrite <-Hp in Hf, Hg. by apply H. Qed.


(** ** The misspelt link *)

(** C4, as claimed, fails: the suggestion is not [/guide/intro]. *)
Lemma intor_suggestion_is_not_extensionless :
  ¬ (∃ b, b ∈ report_broken_links
              (run (elements (all_files (init intor_tree))) intor_tree) ∧
          broken_link b = intor_link ∧
          suggestion (broken_validation b) = Some "/guide/intro").
Proof.
  intros (b & Hb & _ & Hs). vm_compute in Hb.
  apply list_elem_of_In in Hb. destruct Hb as [<-|[]]. discriminate Hs.
Qed.

(** C4, amended: the link normalizes to [/guide/intor.mdx], none of
    the five candidates is indexed, the best fuzzy match clears the
    cutoff, and the one broken-link record suggests
    [/guide/intro.mdx] with high confidence. *)
Theorem intor_suggestion (ord : list string) :
  ord ≡ₚ elements (all_files (init intor_tree)) →
  normalize_internal_path "/guide/intor" = "/guide/intor.mdx" ∧
  first_indexed (all_files (init intor_tree)) (possible_paths "/guide/intor.mdx") = None ∧
  (Difflib.cutoff <=
     Difflib.ratio (Difflib.seq_of "/guide/intro.mdx") (Difflib.seq_of "/guide/intor.mdx"))%Q ∧
  report_broken_links (run ord intor_tree) =
    [ {| broken_link := intor_link;
         broken_validation :=
           {| valid := false; target := "/guide/intor.mdx";
              suggestion := Some "/guide/intro.mdx" |};
         broken_confidence := high |} ].
Proof.
  intros Hord.
  split; [reflexivity|split; [by vm_compute|split; [by vm_compute|]]].
  rewrite (run_perm ord (elements (all_files (init intor_tree))) intor_tree Hord).
  - by vm_compute.
  - apply case_distinct_perm with (elements (all_files (init intor_tree))); [done|].
    apply case_distinctb_correct. by vm_compute.
Qed.

Lemma intor_suggestion_witness :
  normalize_internal_path "/guide/intor" = "/guide/intor.mdx" ∧
  first_indexed (all_files (init intor_tree)) (possible_paths "/guide/intor.mdx") = None ∧
  (Difflib.cutoff <=
     Difflib.ratio (Difflib.seq_of "/guide/intro.mdx") (Difflib.seq_of "/guide/intor.mdx"))%Q ∧
  report_broken_links (run (elements (all_files (init intor_tree))) intor_tree) =
    [ {| broken_link := intor_link;
         broken_validation :=
           {| valid := false; target := "/guide/intor.mdx";
              suggestion := Some "/guide/intro.mdx" |};
         broken_confidence := high |} ].
Proof.
  apply (intor_suggestion (elements (all_files (init intor_tree)))). reflexivity.
Defined.


(** ** Worked examples *)

(** The scores behind the suggestion for the misspelt link. *)
Example intor_scores :
  Difflib.scored "/guide/intor.mdx"
    ["guide/intro"; "/guide/intro"; "guide/intro.mdx"; "/guide/intro.mdx"] =
  [ (Qmake 20 27, "guide/intro"); (Qmake 22 28, "/guide/intro");
    (Qmake 28 31, "guide/intro.mdx"); (Qmake 30 32, "/guide/intro.mdx") ].
Proof. by vm_compute. Qed.

(** The two suggestions for the link of [case_clash_tree]. *)
Example case_clash_suggestions :
  let idx := elements (all_files (init case_clash_tree)) in
  List.map (fun b => suggestion (broken_validation b))
    (report_broken_links (run idx case_clash_tree)) = [Some "guide.md"] ∧
  List.map (fun b => suggestion (broken_validation b))
    (report_broken_links (run (reverse idx) case_clash_tree)) = [Some "Guide.md"].
Proof. by vm_compute. Qed.

(** Pattern order first, then match order; lines count from one. *)
Example extract_order :
  List.map (fun l => (link_type l, link_line l, link_url l))
    (extract_links_from_file
       {| rel := "a.md"; is_file := true;
          read_text :=
            Ok (String.concat (String "010" "")
                  [ "<img SRC='https://example.com/pic.png'>";
                    "[one](./one) and [two](two.md#top)";
                    "<a href='/three?x=1'>3</a>" ]) |}) =
  [ (markdown, 2, "./one"); (markdown, 2, "two.md#top");
    (href, 3, "/three?x=1"); (src, 1, "https://example.com/pic.png") ].
Proof. by vm_compute. Qed.

(** An empty root: every count is zero and every list is empty. *)
Example empty_root_report (ord : list string) :
  run ord [] =
  {| summary := {| total_files_scanned := 0; total_links_found := 0;
                   internal_links := 0; summary_external_links := 0;
                   broken_internal_links := 0; summary_fixes_applied := 0 |};
     report_broken_links := []; report_external_links := [];
     report_fixes_applied := []; all_links := [] |}.
Proof. reflexivity. Qed.

(** * Further properties of the script *)

(** ** Suffixes, prefixes and character counts *)

Lemma string_app_assoc (s1 s2 s3 : string) : (s1 +:+ s2) +:+ s3 = s1 +:+ (s2 +:+ s3).
Proof.
  induction s1 as [|c s1 IH]; [done|]. by rewrite !string_app_cons, IH.
Qed.

Lemma string_app_nil_r (s : string) : s +:+ "" = s.
Proof. induction s as [|c s IH]; [done|]. by rewrite string_app_cons, IH. Qed.

Lemma length_app_string (s1 s2 : string) :
  String.length (s1 +:+ s2) = String.length s1 + String.length s2.
Proof.
  induction s1 as [|c s1 IH]; [done|]. rewrite string_app_cons. simpl. by rewrite IH.
Qed.

Lemma take_drop_string n : ∀ s, PyStr.take n s +:+ PyStr.drop n s = s.
Proof.
  induction n as [|n IH]; intros [|c s]; try done.
  simpl. by rewrite string_app_cons, IH.
Qed.

Lemma endswith_app suf s : PyStr.endswith suf s = true ↔ ∃ pre, s = pre +:+ suf.
Proof.
  unfold PyStr.endswith. rewrite andb_true_iff, Nat.leb_le, String.eqb_eq. split.
  - intros [_ Hd]. exists (PyStr.take (String.length s - String.length suf) s).
    rewrite <-Hd at 2. by rewrite take_drop_string.
  - intros [pre ->]. rewrite length_app_string. split; [lia|].
    replace (String.length pre + String.length suf - String.length suf)
      with (String.length pre) by lia.
    apply drop_app_length.
Qed.

Lemma endswith_app_r suf pre s :
  PyStr.endswith suf s = true → PyStr.endswith suf (pre +:+ s) = true.
Proof.
  rewrite !endswith_app. intros [p ->]. exists (pre +:+ p). by rewrite string_app_assoc.
Qed.

Lemma endswith_self_app suf s : PyStr.endswith suf (s +:+ suf) = true.
Proof. apply endswith_app. by exists s. Qed.

Lemma endswith_any_app_r ps pre s :
  PyStr.endswith_any ps s = true → PyStr.endswith_any ps (pre +:+ s) = true.
Proof.
  unfold PyStr.endswith_any. rewrite !existsb_exists.
  intros (p & Hp & He). exists p. split; [done|]. by apply endswith_app_r.
Qed.

Lemma name_suffix p : ∃ pre, p = pre +:+ Pathlib.name p.
Proof.
  unfold Pathlib.name. destruct (PyStr.rfind "/" p) as [i|].
  - exists (PyStr.take (S i) p). by rewrite take_drop_string.
  - by exists "".
Qed.

Lemma endswith_name ext p :
  PyStr.endswith ext (Pathlib.name p) = true → PyStr.endswith ext p = true.
Proof.
  intros H. destruct (name_suffix p) as [pre Hp]. rewrite Hp. by apply endswith_app_r.
Qed.

Lemma strip_from_count c s : PyStr.count c (strip_from c s) = 0.
Proof.
  induction s as [|d s IH]; simpl; [done|].
  destruct (Ascii.eqb d c) eqn:E; simpl; [done|]. by rewrite E.
Qed.

Lemma strip_from_count_other c c' s :
  PyStr.count c' s = 0 → PyStr.count c' (strip_from c s) = 0.
Proof.
  induction s as [|d s IH]; simpl; [done|].
  destruct (Ascii.eqb d c); simpl; [done|]. destruct (Ascii.eqb d c'); [done|]. apply IH.
Qed.

Lemma strip_from_id c s : PyStr.count c s = 0 → strip_from c s = s.
Proof.
  induction s as [|d s IH]; simpl; [done|].
  destruct (Ascii.eqb d c); [done|]. intros H. by rewrite IH.
Qed.

Lemma strip_from_app_sep c s r : strip_from c (s +:+ String c r) = strip_from c s.
Proof.
  induction s as [|d s IH].
  - rewrite string_app_nil_l. simpl. by rewrite Ascii.eqb_refl.
  - rewrite string_app_cons. simpl. destruct (Ascii.eqb d c); [done|]. by rewrite IH.
Qed.

Lemma strip_from_app_other c c' s r :
  PyStr.count c s = 0 →
  strip_from c' (strip_from c (s +:+ String c' r)) = strip_from c' s.
Proof.
  induction s as [|d s IH]; intros Hc.
  - rewrite string_app_nil_l. simpl.
    destruct (Ascii.eqb c' c) eqn:E; simpl; [done|]. by rewrite Ascii.eqb_refl.
  - rewrite string_app_cons. simpl in *.
    destruct (Ascii.eqb d c) eqn:E; [done|]. simpl.
    destruct (Ascii.eqb d c'); [done|]. by rewrite IH.
Qed.

Lemma count_app c s1 s2 : PyStr.count c (s1 +:+ s2) = PyStr.count c s1 + PyStr.count c s2.
Proof.
  induction s1 as [|d s1 IH]; [done|]. rewrite string_app_cons. simpl. rewrite IH. lia.
Qed.

Lemma count_drop c n : ∀ s, PyStr.count c s = 0 → PyStr.count c (PyStr.drop n s) = 0.
Proof.
  induction n as [|n IH]; intros [|d s]; simpl; try done.
  intros H. apply IH. lia.
Qed.

Lemma count_take_le c n : ∀ s, PyStr.count c (PyStr.take n s) ≤ PyStr.count c s.
Proof.
  induction n as [|n IH]; intros [|d s]; simpl; try lia.
  specialize (IH s). lia.
Qed.

(** ** Normalization *)

(** The remainder of a url once fragment and query are cut off. *)
Lemma normalize_internal_path_cases url :
  let r := strip_from "?" (strip_from "#" url) in
  normalize_internal_path url =
    if PyStr.startswith "./" r then
      (if PyStr.endswith_any known_extensions (PyStr.drop 2 r)
       then PyStr.drop 2 r else PyStr.drop 2 r +:+ ".mdx")
    else if PyStr.startswith "../" r then r
    else if PyStr.endswith_any known_extensions r then r else r +:+ ".mdx".
Proof.
  intros r. unfold normalize_internal_path. rewrite !split_item0. fold r.
  destruct (PyStr.startswith "./" r).
  - by destruct (PyStr.endswith_any known_extensions (PyStr.drop 2 r)).
  - destruct (PyStr.startswith "../" r); [done|].
    by destruct (PyStr.endswith_any known_extensions r).
Qed.

Lemma strip_query_after_fragment url rest :
  strip_from "?" (strip_from "#" (url +:+ String "?" rest)) =
  strip_from "?" (strip_from "#" url).
Proof.
  induction url as [|d url IH].
  - rewrite string_app_nil_l. reflexivity.
  - rewrite string_app_cons. simpl.
    destruct (Ascii.eqb d "#"); [done|]. simpl.
    destruct (Ascii.eqb d "?"); [done|]. by rewrite IH.
Qed.

Lemma normalize_app_fragment url rest :
  normalize_internal_path (url +:+ String "#" rest) = normalize_internal_path url.
Proof. unfold normalize_internal_path. by rewrite !split_item0, strip_from_app_sep. Qed.

Lemma normalize_app_query url rest :
  normalize_internal_path (url +:+ String "?" rest) = normalize_internal_path url.
Proof. unfold normalize_internal_path. by rewrite !split_item0, strip_query_after_fragment. Qed.

Lemma validate_same_normalized ord idx l1 l2 :
  normalize_internal_path (link_url l1) = normalize_internal_path (link_url l2) →
  validate_internal_link ord idx l1 = validate_internal_link ord idx l2.
Proof. intros H. unfold validate_internal_link. by rewrite H. Qed.

(** X1: whatever follows a [#] or a [?] appended to a url has no
    influence on the validation: the result is that of the url alone,
    for every index and whatever the other fields of the link. *)
Theorem validation_ignores_fragment_and_query
    (ord : list string) (idx : gset string) (l l' : Link) (sep : ascii) (rest : string) :
  sep = "#"%char ∨ sep = "?"%char →
  link_url l' = link_url l +:+ String sep rest →
  validate_internal_link ord idx l' = validate_internal_link ord idx l.
Proof.
  intros Hsep Hurl. apply validate_same_normalized. rewrite Hurl.
  destruct Hsep as [->| ->]; [apply normalize_app_fragment|apply normalize_app_query].
Qed.

Lemma validation_ignores_fragment_and_query_witness :
  validate_internal_link [] {[ "guide/intro.mdx" ]}
    {| link_file := "a.md"; link_line := 3; link_type := href; link_text := "";
       link_url := "guide/intro#install"; link_raw_match := "href='guide/intro#install'" |} =
  validate_internal_link [] {[ "guide/intro.mdx" ]}
    {| link_file := "b.md"; link_line := 1; link_type := markdown; link_text := "intro";
       link_url := "guide/intro"; link_raw_match := "[intro](guide/intro)" |}.
Proof.
  apply (validation_ignores_fragment_and_query [] {[ "guide/intro.mdx" ]} _ _
           "#"%char "install").
  - by left.
  - reflexivity.
Defined.

(** X2: a normalized path contains neither [#] nor [?]. *)
Theorem normalized_has_no_fragment_or_query (url : string) :
  PyStr.count "#" (normalize_internal_path url) = 0 ∧
  PyStr.count "?" (normalize_internal_path url) = 0.
Proof.
  rewrite normalize_internal_path_cases.
  set (r := strip_from "?" (strip_from "#" url)).
  assert (PyStr.count "#" r = 0) as Hf
    by apply strip_from_count_other, strip_from_count.
  assert (PyStr.count "?" r = 0) as Hq by apply strip_from_count.
  assert (∀ s, PyStr.count "#" s = 0 → PyStr.count "#" (s +:+ ".mdx") = 0) as Hf'
    by (intros s Hs; by rewrite count_app, Hs).
  assert (∀ s, PyStr.count "?" s = 0 → PyStr.count "?" (s +:+ ".mdx") = 0) as Hq'
    by (intros s Hs; by rewrite count_app, Hs).
  destruct (PyStr.startswith "./" r); [|destruct (PyStr.startswith "../" r); [done|]].
  - destruct (PyStr.endswith_any _ _); split;
      first [by apply count_drop | apply Hf'; by apply count_drop
            | apply Hq'; by apply count_drop].
  - destruct (PyStr.endswith_any _ _); [done|]. split; [by apply Hf'|by apply Hq'].
Qed.

Lemma endswith_any_mdx s : PyStr.endswith_any known_extensions (s +:+ ".mdx") = true.
Proof.
  unfold PyStr.endswith_any. apply existsb_exists. exists ".mdx".
  split; [simpl; tauto|apply endswith_self_app].
Qed.

(** X3: a normalized path ends in one of the seven known extensions,
    unless the url, with fragment and query cut off, is
    parent-relative, in which case it is that remainder unchanged. *)
Theorem normalized_has_known_extension (url : string) :
  let r := strip_from "?" (strip_from "#" url) in
  if PyStr.startswith "../" r then normalize_internal_path url = r
  else PyStr.endswith_any known_extensions (normalize_internal_path url) = true.
Proof.
  intros r. rewrite normalize_internal_path_cases. fold r.
  destruct (PyStr.startswith "./" r) eqn:Hdot.
  - rewrite (startswith_dot_exclusive _ Hdot).
    destruct (PyStr.endswith_any known_extensions (PyStr.drop 2 r)) eqn:E; [done|].
    apply endswith_any_mdx.
  - destruct (PyStr.startswith "../" r); [done|].
    destruct (PyStr.endswith_any known_extensions r) eqn:E; [done|].
    apply endswith_any_mdx.
Qed.

(** ** The result of a validation *)

Lemma first_indexed_Some idx paths p :
  first_indexed idx paths = Some p →
  p ∈ paths ∧ p ∈ idx.
Proof.
  unfold first_indexed. intros [Hin Hd]%List.find_some.
  split; [by apply list_elem_of_In|]. by apply bool_decide_eq_true in Hd.
Qed.

Lemma first_indexed_None idx paths :
  first_indexed idx paths = None → ∀ p, p ∈ paths → p ∉ idx.
Proof.
  unfold first_indexed. intros Hn p Hp%list_elem_of_In.
  pose proof (List.find_none _ _ Hn p Hp) as H; simpl in H.
  by apply bool_decide_eq_false in H.
Qed.

(** X4: a valid result names an indexed candidate as target and
    carries no suggestion; an invalid result has the normalized path
    as target, none of the five candidates is indexed, and its
    suggestion is what the fuzzy search returns. *)
Theorem validation_result_shape (ord : list string) (idx : gset string) (link : Link) :
  let n := normalize_internal_path (link_url link) in
  let v := validate_internal_link ord idx link in
  if valid v
  then target v ∈ idx ∧ target v ∈ possible_paths n ∧ suggestion v = None
  else target v = n ∧ (∀ p, p ∈ possible_paths n → p ∉ idx) ∧
       suggestion v = find_closest_match ord n.
Proof.
  intros n v. unfold v, validate_internal_link. fold n.
  destruct (first_indexed idx (possible_paths n)) as [p|] eqn:E; simpl.
  - apply first_indexed_Some in E as [??]. done.
  - split; [done|split; [|done]]. by apply first_indexed_None.
Qed.

(** ** Links to indexed files *)

Lemma find_head {A} (f : A → bool) x l : f x = true → List.find f (x :: l) = Some x.
Proof. intros H. simpl. by rewrite H. Qed.

Lemma normalize_plain url :
  PyStr.count "#" url = 0 → PyStr.count "?" url = 0 →
  PyStr.startswith "./" url = false → PyStr.startswith "../" url = false →
  PyStr.endswith_any known_extensions url = true →
  normalize_internal_path url = url.
Proof.
  intros Hf Hq Hd Hdd He. rewrite normalize_internal_path_cases.
  rewrite (strip_from_id "#" url Hf), (strip_from_id "?" url Hq).
  by rewrite Hd, Hdd, He.
Qed.

Lemma documentation_file_extension t e :
  documentation_file t e → PyStr.endswith_any known_extensions (rel e) = true.
Proof.
  intros (_ & _ & H). unfold PyStr.endswith_any. apply existsb_exists.
  destruct H as [H|H]; apply endswith_name in H;
    [exists ".mdx"|exists ".md"]; (split; [simpl; tauto|done]).
Qed.

Lemma documentation_file_indexed t e :
  documentation_file t e →
  rel e ∈ all_files (init t) ∧ ("/" +:+ rel e) ∈ all_files (init t).
Proof.
  intros He. unfold init; simpl.
  split; apply elem_of_build_file_index; exists e; (split; [done|]);
    apply list_elem_of_In; simpl; tauto.
Qed.

(** X5: a page of the tree whose relative path has no [#] and no [?]
    and is not itself dot-relative can be linked by that path, with or
    without a leading slash: the link is valid and its target is the
    url as written. *)
Theorem link_to_indexed_file_is_valid
    (ord : list string) (t : Tree) (e : Entry) (l : Link) :
  documentation_file t e →
  PyStr.count "#" (rel e) = 0 → PyStr.count "?" (rel e) = 0 →
  PyStr.startswith "./" (rel e) = false → PyStr.startswith "../" (rel e) = false →
  link_url l = rel e ∨ link_url l = "/" +:+ rel e →
  validate_internal_link ord (all_files (init t)) l =
    {| valid := true; target := link_url l; suggestion := None |}.
Proof.
  intros He Hf Hq Hd Hdd Hurl.
  pose proof (documentation_file_extension t e He) as Hext.
  destruct (documentation_file_indexed t e He) as [Hin Hin'].
  assert (normalize_internal_path (link_url l) = link_url l) as Hn.
  { destruct Hurl as [-> | ->]; [by apply normalize_plain|].
    apply normalize_plain; rewrite ?count_app, ?Hf, ?Hq; try done.
    by apply endswith_any_app_r. }
  unfold validate_internal_link. rewrite Hn. unfold first_indexed, possible_paths.
  rewrite find_head; [done|].
  apply bool_decide_eq_true. by destruct Hurl as [-> | ->].
Qed.

Lemma link_to_indexed_file_is_valid_witness :
  validate_internal_link [] (all_files (init intor_tree))
    {| link_file := "guide/other.mdx"; link_line := 1; link_type := markdown;
       link_text := "intro"; link_url := "/guide/intro.mdx";
       link_raw_match := "[intro](/guide/intro.mdx)" |} =
  {| valid := true; target := "/guide/intro.mdx"; suggestion := None |}.
Proof.
  apply (link_to_indexed_file_is_valid [] intor_tree
           {| rel := "guide/intro.mdx"; is_file := true; read_text := Ok "# Intro" |}).
  - split; [by left|]. split; [reflexivity|]. by left.
  - reflexivity.
  - reflexivity.
  - reflexivity.
  - reflexivity.
  - by right.
Defined.

(** ** Links without a known extension *)

Lemma lstrip_app_suffix c ext' pre :
  c ≠ "/"%char →
  ∃ pre', PyStr.lstrip "/" (pre +:+ String c ext') = pre' +:+ String c ext'.
Proof.
  intros Hc. induction pre as [|d pre IH].
  - exists "". rewrite !string_app_nil_l. simpl.
    by destruct (Ascii.eqb_spec c "/").
  - rewrite string_app_cons. simpl. destruct (Ascii.eqb d "/"); [done|].
    exists (String d pre). by rewrite string_app_cons.
Qed.

Lemma endswith_mdx_lstrip s :
  PyStr.endswith ".mdx" s = true → PyStr.endswith ".mdx" (PyStr.lstrip "/" s) = true.
Proof.
  rewrite !endswith_app. intros [pre ->].
  by apply (lstrip_app_suffix "." "mdx" pre).
Qed.

(** X6: a url that is not parent-relative and whose path has none of
    the seven known extensions can only resolve to an index entry that
    ends in [.mdx] or in [.mdx.md]; when the index has no such entry
    the link is invalid, even when a page [path.md] exists. *)
Theorem extensionless_link_needs_mdx_entry
    (ord : list string) (idx : gset string) (l : Link) :
  PyStr.startswith "../" (url_remainder (link_url l)) = false →
  PyStr.endswith_any known_extensions (url_path (link_url l)) = false →
  (∀ s, s ∈ idx → PyStr.endswith ".mdx" s = false ∧ PyStr.endswith ".mdx.md" s = false) →
  valid (validate_internal_link ord idx l) = false ∧
  target (validate_internal_link ord idx l) = url_path (link_url l) +:+ ".mdx".
Proof.
  intros Hdd Hext Hidx.
  assert (normalize_internal_path (link_url l) = url_path (link_url l) +:+ ".mdx") as Hn.
  { rewrite normalize_internal_path_cases. unfold url_path, url_remainder in *.
    destruct (PyStr.startswith "./" _); [by rewrite Hext|]. by rewrite Hdd, Hext. }
  assert (valid (validate_internal_link ord idx l) = false) as Hv.
  { apply not_true_is_false. rewrite validate_valid, Hn.
    intros (p & Hp & Hin). destruct (Hidx p Hin) as [H1 H2].
    unfold possible_paths in Hp. rewrite !elem_of_cons, elem_of_nil in Hp.
    pose proof (endswith_self_app ".mdx" (url_path (link_url l))) as Hm.
    destruct Hp as [->|[->|[->|[->|[->|[]]]]]].
    - by rewrite Hm in H1.
    - by rewrite (endswith_mdx_lstrip _ Hm) in H1.
    - by rewrite (endswith_app_r _ "/" _ (endswith_mdx_lstrip _ Hm)) in H1.
    - by rewrite endswith_self_app in H1.
    - rewrite string_app_assoc in H2. change (".mdx" +:+ ".md") with ".mdx.md" in H2.
      by rewrite (endswith_self_app ".mdx.md" (url_path (link_url l))) in H2. }
  split; [done|].
  unfold validate_internal_link in *. rewrite Hn in *.
  by destruct (first_indexed idx _).
Qed.

Lemma index_Forall (P : string → Prop) (idx : gset string) :
  Forall P (elements idx) → ∀ s, s ∈ idx → P s.
Proof. intros H s Hs%elem_of_elements. by apply (proj1 (Forall_forall _ _) H). Qed.

Lemma extensionless_link_needs_mdx_entry_witness :
  valid (validate_internal_link [] (all_files (init md_only_tree)) md_only_link) = false ∧
  target (validate_internal_link [] (all_files (init md_only_tree)) md_only_link) =
    "guide.mdx".
Proof.
  apply (extensionless_link_needs_mdx_entry [] (all_files (init md_only_tree)) md_only_link).
  - reflexivity.
  - reflexivity.
  - apply index_Forall.
    let els := eval vm_compute in (elements (all_files (init md_only_tree))) in
    change (elements (all_files (init md_only_tree))) with els.
    repeat constructor.
Defined.

(** ** Links that are only an anchor *)

Lemma startswith_take_char c k s :
  PyStr.startswith (String c "") (PyStr.take (S k) s) = PyStr.startswith (String c "") s.
Proof.
  destruct s as [|d s]; [done|]. unfold PyStr.startswith; simpl.
  destruct (ascii_dec c d); [|done]. by destruct s, (PyStr.take k _).
Qed.

Lemma with_suffix_empty_take p :
  p ≠ "" → ∃ k, Pathlib.with_suffix_empty p = PyStr.take (S k) p.
Proof.
  intros Hp. unfold Pathlib.with_suffix_empty.
  pose proof (length_suffix p Hp).
  destruct (String.length p - String.length (Pathlib.suffix p)) as [|k] eqn:E; [lia|].
  by exists k.
Qed.

Lemma startswith_slash_dot s :
  PyStr.startswith "/." s = true → PyStr.startswith "/" s = true.
Proof.
  intros [r ->]%startswith_app. apply startswith_app. by exists (String "." r).
Qed.

Lemma startswith_slash_app p s :
  PyStr.startswith (String "/" p) ("/" +:+ s) = PyStr.startswith p s.
Proof. unfold PyStr.startswith. rewrite string_app_cons, string_app_nil_l. done. Qed.

(** With no page whose relative path starts with a dot or a slash, no
    index entry starts with a dot or with slash-dot. *)
Lemma index_entry_not_hidden t s :
  (∀ e, documentation_file t e →
        PyStr.startswith "." (rel e) = false ∧ PyStr.startswith "/" (rel e) = false) →
  s ∈ all_files (init t) →
  PyStr.startswith "." s = false ∧ PyStr.startswith "/." s = false.
Proof.
  intros Hrel (e & He & Hs)%elem_of_build_file_index.
  destruct (Hrel e He) as [Hdot Hslash].
  pose proof (documentation_file_rel_nonempty t e He) as Hne.
  destruct (with_suffix_empty_take (rel e) Hne) as [k Hk].
  assert (∀ x, PyStr.startswith "/" x = false → PyStr.startswith "/." x = false) as Hsd.
  { intros x Hx. apply not_true_is_false. intros H%startswith_slash_dot. by rewrite H in Hx. }
  unfold index_variants in Hs. rewrite !elem_of_cons, elem_of_nil in Hs.
  destruct Hs as [->|[->|[->|[->|[]]]]].
  - split; [done|by apply Hsd].
  - rewrite Hk. split; [by rewrite startswith_take_char|].
    apply Hsd. by rewrite startswith_take_char.
  - split; [done|]. by rewrite startswith_slash_app.
  - split; [done|]. by rewrite startswith_slash_app, Hk, startswith_take_char.
Qed.

(** X7: a link whose url is only a fragment, such as a link to an
    anchor of the same page, normalizes to [.mdx]; when no page has a
    relative path that starts with a dot or a slash, it is reported
    broken. *)
Theorem anchor_only_link_is_reported_broken
    (ord : list string) (t : Tree) (l : Link) (frag : string) :
  (∀ e, documentation_file t e →
        PyStr.startswith "." (rel e) = false ∧ PyStr.startswith "/" (rel e) = false) →
  l ∈ extracted t →
  link_url l = String "#" frag →
  normalize_internal_path (link_url l) = ".mdx" ∧
  {| broken_link := l;
     broken_validation :=
       {| valid := false; target := ".mdx";
          suggestion := find_closest_match ord ".mdx" |};
     broken_confidence := confidence_of (find_closest_match ord ".mdx") |}
  ∈ broken_links (process_all_files ord t (init t)).
Proof.
  intros Hrel Hl Hurl.
  assert (normalize_internal_path (link_url l) = ".mdx") as Hn.
  { rewrite Hurl. unfold normalize_internal_path. by rewrite !split_item0. }
  split; [done|].
  apply elem_of_broken_links. exists l. split; [done|].
  unfold broken_of, is_internal. rewrite Hurl at 1.
  change (is_internal_link (String "#" frag)) with true. cbv iota zeta.
  unfold validate_internal_link. rewrite Hn.
  destruct (first_indexed _ _) as [p|] eqn:E; [|done].
  apply first_indexed_Some in E as [Hp Hin].
  destruct (index_entry_not_hidden t p Hrel Hin) as [H1 H2].
  unfold possible_paths in Hp. rewrite !elem_of_cons, elem_of_nil in Hp.
  by destruct Hp as [->|[->|[->|[->|[->|[]]]]]].
Qed.

Lemma anchor_only_link_is_reported_broken_witness :
  normalize_internal_path (link_url anchor_link) = ".mdx" ∧
  {| broken_link := anchor_link;
     broken_validation :=
       {| valid := false; target := ".mdx";
          suggestion := find_closest_match [] ".mdx" |};
     broken_confidence := confidence_of (find_closest_match [] ".mdx") |}
  ∈ broken_links (process_all_files [] anchor_tree (init anchor_tree)).
Proof.
  apply (anchor_only_link_is_reported_broken [] anchor_tree anchor_link "top").
  - intros e (He & _ & _). apply list_elem_of_In in He. by destruct He as [<-|[]].
  - vm_compute. constructor.
  - reflexivity.
Defined.

(** ** What an extracted link records *)

Lemma finditer_go_elem m s : ∀ pos skip x,
  x ∈ Re.finditer_go m s pos skip →
  ∃ k text url len,
    x = (pos + k, text, url, PyStr.take len (PyStr.drop k s)) ∧
    m (PyStr.drop k s) = Some (text, url, len).
Proof.
  induction s as [|c s IH]; intros pos skip x Hx; simpl in Hx.
  - by apply elem_of_nil in Hx.
  - assert (∀ skip', x ∈ Re.finditer_go m s (S pos) skip' →
              ∃ k text url len,
                x = (pos + k, text, url, PyStr.take len (PyStr.drop k (String c s))) ∧
                m (PyStr.drop k (String c s)) = Some (text, url, len)) as Hrest.
    { intros skip' H. destruct (IH _ _ _ H) as (k & text & url & len & -> & Hm).
      exists (S k), text, url, len. split; [|done]. simpl. do 3 f_equal. lia. }
    destruct skip as [|skip]; [|by apply Hrest with skip].
    destruct (m (String c s)) as [[[text url] len]|] eqn:E; [|by apply Hrest with 0].
    apply elem_of_cons in Hx as [->|Hx]; [|by apply Hrest with (len - 1)].
    exists 0, text, url, len. split; [|done]. simpl. do 3 f_equal. lia.
Qed.

Lemma span_app p s run rest : Re.span p s = (run, rest) → s = run +:+ rest.
Proof.
  revert run rest. induction s as [|c s IH]; intros run rest H; simpl in H.
  - by injection H as <- <-.
  - destruct (p c).
    + destruct (Re.span p s) as [run' rest']. injection H as <- <-.
      rewrite string_app_cons. f_equal. by apply IH.
    + by injection H as <- <-.
Qed.

Lemma span_count c s run rest :
  Re.span (fun d => negb (Ascii.eqb d c)) s = (run, rest) → PyStr.count c run = 0.
Proof.
  revert run rest. induction s as [|d s IH]; intros run rest H; simpl in H.
  - by injection H as <- <-.
  - destruct (Ascii.eqb d c) eqn:E; simpl in H.
    + by injection H as <- <-.
    + destruct (Re.span _ s) as [run' rest']. injection H as <- <-.
      simpl. rewrite E. by apply IH with rest'.
Qed.

Lemma span_no_quote s run rest :
  Re.span (fun c => negb (Re.is_quote c)) s = (run, rest) →
  PyStr.count "034" run = 0 ∧ PyStr.count "'" run = 0.
Proof.
  revert run rest. induction s as [|d s IH]; intros run rest H; simpl in H.
  - by injection H as <- <-.
  - destruct (Re.is_quote d) eqn:E; simpl in H.
    + by injection H as <- <-.
    + destruct (Re.span _ s) as [run' rest']. injection H as <- <-.
      unfold Re.is_quote in E. apply orb_false_elim in E as [E1 E2].
      simpl. rewrite E1, E2. by apply IH with rest'.
Qed.

Lemma match_markdown_Some s text url len :
  Re.match_markdown s = Some (text, url, len) →
  ∃ rest,
    s = ("[" +:+ text +:+ "](" +:+ url +:+ ")") +:+ rest ∧
    len = String.length ("[" +:+ text +:+ "](" +:+ url +:+ ")") ∧
    url ≠ "" ∧ PyStr.count "]" text = 0 ∧ PyStr.count ")" url = 0.
Proof.
  unfold Re.match_markdown. intros H.
  destruct s as [|c s1]; [done|].
  destruct (Ascii.eqb_spec c "[") as [->|Hc];
    [|by destruct c as [[] [] [] [] [] [] [] []]].
  destruct (Re.span _ s1) as [t s2] eqn:E1.
  destruct s2 as [|c2 s2]; [done|].
  destruct (Ascii.eqb_spec c2 "]") as [->|Hc2];
    [|by destruct c2 as [[] [] [] [] [] [] [] []]].
  destruct s2 as [|c3 s3]; [done|].
  destruct (Ascii.eqb_spec c3 "(") as [->|Hc3];
    [|by destruct c3 as [[] [] [] [] [] [] [] []]].
  destruct (Re.span _ s3) as [u s4] eqn:E2.
  destruct u as [|u0 u]; [done|].
  destruct s4 as [|c4 s4]; [done|].
  destruct (Ascii.eqb_spec c4 ")") as [->|Hc4];
    [|by destruct c4 as [[] [] [] [] [] [] [] []]].
  injection H as <- <- <-.
  exists s4. split; [|split; [|split; [done|split]]].
  - rewrite (span_app _ _ _ _ E1), (span_app _ _ _ _ E2).
    rewrite !string_app_assoc. reflexivity.
  - rewrite !length_app_string. simpl. lia.
  - by apply span_count with s1 (String "]" (String "(" s3)).
  - by apply span_count with s3 (String ")" s4).
Qed.

Lemma span_rest_head p s run c rest :
  Re.span p s = (run, String c rest) → p c = false.
Proof.
  revert run. induction s as [|d s IH]; intros run H; simpl in H; [done|].
  destruct (p d) eqn:E.
  - destruct (Re.span p s) as [run' rest']. injection H as <- ->. by apply IH with run'.
  - by injection H as <- <- <-.
Qed.

Lemma length_app_eq attr : String.length (attr +:+ "=") = String.length attr + 1.
Proof. by rewrite length_app_string. Qed.

Lemma match_attr_Some attr s text url len :
  Re.match_attr attr s = Some (text, url, len) →
  ∃ name q1 q2 rest,
    s = (name +:+ String q1 (url +:+ String q2 "")) +:+ rest ∧
    len = String.length (name +:+ String q1 (url +:+ String q2 "")) ∧
    PyStr.lower name = attr +:+ "=" ∧
    Re.is_quote q1 = true ∧ Re.is_quote q2 = true ∧
    text = "" ∧ url ≠ "" ∧
    PyStr.count "034" url = 0 ∧ PyStr.count "'" url = 0.
Proof.
  unfold Re.match_attr. set (n := String.length attr + 1). intros H.
  destruct (String.eqb_spec (PyStr.lower (PyStr.take n s)) (attr +:+ "=")) as [Hname|]; [|done].
  destruct (PyStr.drop n s) as [|q1 s1] eqn:Hdrop; [done|].
  destruct (Re.is_quote q1) eqn:Hq1; [|done].
  destruct (Re.span _ s1) as [u s2] eqn:E.
  destruct u as [|u0 u]; [done|].
  destruct s2 as [|q2 rest]; [done|].
  injection H as <- <- <-.
  pose proof (span_rest_head _ _ _ _ _ E) as Hq2. apply negb_false_iff in Hq2.
  destruct (span_no_quote _ _ _ E) as [Hd Hs].
  assert (String.length (PyStr.take n s) = n) as Hlen.
  { rewrite <-(length_lower (PyStr.take n s)), Hname. apply length_app_eq. }
  exists (PyStr.take n s), q1, q2, rest.
  split; [|split; [|done]].
  - rewrite <-(take_drop_string n s) at 1. rewrite Hdrop, (span_app _ _ _ _ E).
    rewrite !string_app_assoc, !string_app_cons. do 2 f_equal.
    rewrite !string_app_assoc, !string_app_cons. done.
  - rewrite length_app_string, Hlen. simpl. rewrite length_app_string. simpl. lia.
Qed.

Lemma extract_elem e l :
  l ∈ extract_links_from_file e →
  ∃ content p k text url len,
    read_text e = Ok content ∧ p ∈ link_patterns ∧
    p.1 (PyStr.drop k content) = Some (text, url, len) ∧
    l = {| link_file := rel e;
           link_line := PyStr.count "010" (PyStr.take k content) + 1;
           link_type := p.2;
           link_text := text;
           link_url := url;
           link_raw_match := PyStr.take len (PyStr.drop k content) |}.
Proof.
  unfold extract_links_from_file, try_except.
  destruct (read_text e) as [content|] eqn:E.
  - intros Hl. apply list_elem_of_In, List.in_concat in Hl as (ls & Hls & Hl).
    apply List.in_map_iff in Hls as (p & <- & Hp).
    unfold links_of_pattern in Hl.
    apply List.in_map_iff in Hl as ([[[start text] url] raw] & <- & Hx).
    apply list_elem_of_In, finditer_go_elem in Hx as (k & t' & u' & len & Hx & Hm).
    injection Hx as -> -> -> ->.
    exists content, p, k, t', u', len. by rewrite list_elem_of_In.
  - intros H. by apply elem_of_nil in H.
Qed.

Lemma pattern_match_url p s text url len :
  p ∈ link_patterns → p.1 s = Some (text, url, len) →
  url ≠ "" ∧ ∃ raw rest, raw ≠ "" ∧ s = raw +:+ rest ∧ len = String.length raw.
Proof.
  unfold link_patterns. rewrite !elem_of_cons, elem_of_nil.
  intros [->|[->|[->|[]]]] H; simpl in H.
  - apply match_markdown_Some in H as (rest & Hs & Hlen & Hu & _).
    split; [done|]. eexists _, rest. split; [|done].
    by rewrite string_app_cons.
  - apply match_attr_Some in H as (nm & q1 & q2 & rest & Hs & Hlen & Hn & _ & _ & _ & Hu & _).
    split; [done|]. eexists _, rest. split; [|done].
    intros Hnil. apply (f_equal String.length) in Hnil.
    rewrite length_app_string in Hnil. simpl in Hnil. lia.
  - apply match_attr_Some in H as (nm & q1 & q2 & rest & Hs & Hlen & Hn & _ & _ & _ & Hu & _).
    split; [done|]. eexists _, rest. split; [|done].
    intros Hnil. apply (f_equal String.length) in Hnil.
    rewrite length_app_string in Hnil. simpl in Hnil. lia.
Qed.

(** X8: a link extracted from a file records that file; its raw match
    is a non-empty piece of the text, its line is one more than the
    number of newlines before that piece, hence between one and the
    number of lines of the text, and its url is not empty. *)
Theorem extracted_link_location (e : Entry) (l : Link) :
  l ∈ extract_links_from_file e →
  ∃ content pre post,
    read_text e = Ok content ∧
    content = pre +:+ link_raw_match l +:+ post ∧
    link_line l = PyStr.count "010" pre + 1 ∧
    1 ≤ link_line l ≤ PyStr.count "010" content + 1 ∧
    link_file l = rel e ∧
    link_raw_match l ≠ "" ∧
    link_url l ≠ "".
Proof.
  intros (content & p & k & text & url & len & Hread & Hp & Hm & ->)%extract_elem.
  destruct (pattern_match_url p _ _ _ _ Hp Hm) as (Hu & raw & rest & Hraw & Hs & Hlen).
  exists content, (PyStr.take k content), rest. simpl.
  rewrite Hs, Hlen, take_app_length.
  split; [done|split; [|split; [done|split; [|done]]]].
  - by rewrite <-Hs, take_drop_string.
  - pose proof (count_take_le "010" k content). lia.
Qed.

Lemma extracted_link_location_witness :
  ∃ content pre post,
    read_text {| rel := "index.md"; is_file := true;
                 read_text := Ok "<a HREF='HTTP://example.com'>site</a>" |} = Ok content ∧
    content = pre +:+ link_raw_match upper_scheme_link +:+ post ∧
    link_line upper_scheme_link = PyStr.count "010" pre + 1 ∧
    1 ≤ link_line upper_scheme_link ≤ PyStr.count "010" content + 1 ∧
    link_file upper_scheme_link = "index.md" ∧
    link_raw_match upper_scheme_link ≠ "" ∧
    link_url upper_scheme_link ≠ "".
Proof.
  apply (extracted_link_location
           {| rel := "index.md"; is_file := true;
              read_text := Ok "<a HREF='HTTP://example.com'>site</a>" |}
           upper_scheme_link).
  vm_compute. constructor.
Defined.

(** X9: the raw match of a markdown link is its text in brackets
    followed by its url in parentheses; the text has no closing
    bracket and the url no closing parenthesis, so a url is cut at the
    first closing parenthesis. *)
Theorem markdown_link_shape (e : Entry) (l : Link) :
  l ∈ extract_links_from_file e →
  link_type l = markdown →
  link_raw_match l = "[" +:+ link_text l +:+ "](" +:+ link_url l +:+ ")" ∧
  PyStr.count "]" (link_text l) = 0 ∧
  PyStr.count ")" (link_url l) = 0.
Proof.
  intros (content & p & k & text & url & len & Hread & Hp & Hm & ->)%extract_elem Hty.
  simpl in *. unfold link_patterns in Hp. rewrite !elem_of_cons, elem_of_nil in Hp.
  destruct Hp as [->|[->|[->|[]]]]; try done. simpl in Hm.
  apply match_markdown_Some in Hm as (rest & Hs & -> & _ & Ht & Hu).
  by rewrite Hs, take_app_length.
Qed.

Lemma markdown_link_shape_witness :
  link_raw_match intor_link = "[" +:+ link_text intor_link +:+ "](" +:+ link_url intor_link +:+ ")" ∧
  PyStr.count "]" (link_text intor_link) = 0 ∧
  PyStr.count ")" (link_url intor_link) = 0.
Proof.
  apply (markdown_link_shape
           {| rel := "guide/other.mdx"; is_file := true;
              read_text := Ok "[bad](/guide/intor)" |} intor_link).
  - vm_compute. constructor.
  - reflexivity.
Defined.

(** The attribute name of an attribute link. *)
Lemma attribute_pattern p :
  p ∈ link_patterns → p.2 ≠ markdown →
  ∃ attr, p.1 = Re.match_attr attr ∧
          ((p.2 = href ∧ attr = "href") ∨ (p.2 = src ∧ attr = "src")).
Proof.
  unfold link_patterns. rewrite !elem_of_cons, elem_of_nil.
  intros [->|[->|[->|[]]]] H; simpl in *; [done|exists "href"|exists "src"]; tauto.
Qed.


(** ** Counts and lists of the report *)

Lemma length_filter_partition {A} (f : A → bool) (l : list A) :
  length l = length (List.filter f l) + length (List.filter (fun x => negb (f x)) l).
Proof.
  induction l as [|x l IH]; [done|]. simpl. destruct (f x); simpl; lia.
Qed.

(** X11: the count of scanned files in the summary includes every
    entry that matches a pattern, directories too, although only
    regular files are read: it is the number of files read plus the
    number of matching entries that are not files. *)
Theorem total_files_scanned_counts_non_files (ord : list string) (t : Tree) :
  total_files_scanned (summary (run ord t)) =
    length (scanned_files t) +
    length (List.filter (fun e => negb (is_file e))
              (Pathlib.glob ".mdx" t ++ Pathlib.glob ".md" t)).
Proof.
  unfold run, scanned_files. simpl.
  rewrite List.filter_app, !length_app.
  rewrite (length_filter_partition is_file (Pathlib.glob ".mdx" t)).
  rewrite (length_filter_partition is_file (Pathlib.glob ".md" t)).
  lia.
Qed.

(** X12: a pass only appends.  On any validator it keeps the index
    and the fix list, and leaves what the three lists held in front of
    what it adds; run twice on a fresh validator it lists every link,
    every external link and every broken link twice. *)
Theorem second_pass_appends_again (ord : list string) (t : Tree) (v : LinkValidator) :
  let v1 := process_all_files ord t v in
  let w1 := process_all_files ord t (init t) in
  let w2 := process_all_files ord t w1 in
  all_files v1 = all_files v ∧
  fixes_applied v1 = fixes_applied v ∧
  links_found v1 = links_found v ++ extracted t ∧
  (∃ added, broken_links v1 = broken_links v ++ added) ∧
  (∃ added, external_links v1 = external_links v ++ added) ∧
  links_found w2 = links_found w1 ++ links_found w1 ∧
  external_links w2 = external_links w1 ++ external_links w1 ∧
  broken_links w2 = broken_links w1 ++ broken_links w1.
Proof.
  intros v1 w1 w2. unfold v1, w2, w1. rewrite !process_all_files_after.
  unfold after_links; simpl.
  split; [done|split; [done|split; [done|split; [by eexists|split; [by eexists|done]]]]].
Qed.

Lemma omap_filter_map {A B} (f : A → option B) (p : A → bool) (g : A → B) (l : list A) :
  (∀ x, f x = if p x then Some (g x) else None) →
  omap f l = List.map g (List.filter p l).
Proof.
  intros H. induction l as [|x l IH]; [done|].
  cbn [omap list_omap List.filter]. rewrite H. destruct (p x); simpl; by rewrite IH.
Qed.

(** X13: the broken list of the report holds exactly the internal
    links whose validation failed, in the order of the list of all
    links, one record each, with that validation and the confidence
    derived from its suggestion. *)
Theorem broken_links_are_failed_internal_links (ord : list string) (t : Tree) :
  let idx := all_files (init t) in
  report_broken_links (run ord t) =
    List.map
      (fun l =>
         {| broken_link := l;
            broken_validation := validate_internal_link ord idx l;
            broken_confidence :=
              confidence_of (suggestion (validate_internal_link ord idx l)) |})
      (List.filter
         (fun l => is_internal_link (link_url l) &&
                   negb (valid (validate_internal_link ord idx l)))
         (all_links (run ord t))).
Proof.
  intros idx. unfold run. rewrite process_all_files_after.
  unfold generate_report, after_links; simpl.
  apply omap_filter_map. intros l. unfold broken_of, is_internal, idx, init; simpl.
  destruct (is_internal_link (link_url l)); [|done]. simpl.
  by destruct (valid (validate_internal_link ord (_build_file_index t ∅) l)).
Qed.

(** ** The fuzzy search *)

Lemma tuple_ge_score t1 t2 : Difflib.tuple_ge t1 t2 → (t2.1 <= t1.1)%Q.
Proof.
  unfold Difflib.tuple_ge, flip. rewrite tuple_le_alt.
  intros [H|[H _]]; [by apply Qlt_le_weak|]. rewrite H. apply Qle_refl.
Qed.

Lemma scored_iff word l s x :
  (s, x) ∈ Difflib.scored word l ↔
  x ∈ l ∧ Difflib.close_enough word x = true ∧
  s = Difflib.ratio (Difflib.seq_of x) (Difflib.seq_of word).
Proof.
  unfold Difflib.scored. rewrite list_elem_of_In, List.in_map_iff. split.
  - intros (y & [= <- <-] & [Hy Hc]%List.filter_In). by rewrite list_elem_of_In.
  - intros (Hx & Hc & ->). exists x. split; [done|].
    apply List.filter_In. by rewrite <-list_elem_of_In.
Qed.

Lemma close_enough_ratio word x :
  Difflib.close_enough word x = true →
  (Difflib.cutoff <= Difflib.ratio (Difflib.seq_of x) (Difflib.seq_of word))%Q.
Proof.
  unfold Difflib.close_enough. rewrite !andb_true_iff. intros [_ H]. by apply Qle_bool_iff.
Qed.

Lemma get_close_matches_head word l m ms :
  Difflib.get_close_matches word l = m :: ms →
  m ∈ l ∧ Difflib.close_enough word m = true ∧
  ∀ x, x ∈ l → Difflib.close_enough word x = true →
       (Difflib.ratio (Difflib.seq_of x) (Difflib.seq_of word) <=
        Difflib.ratio (Difflib.seq_of m) (Difflib.seq_of word))%Q.
Proof.
  unfold Difflib.get_close_matches, Difflib.nlargest.
  pose proof (StronglySorted_merge_sort Difflib.tuple_ge (Difflib.scored word l)) as Hs.
  pose proof (merge_sort_Permutation Difflib.tuple_ge (Difflib.scored word l)) as Hp.
  destruct (merge_sort Difflib.tuple_ge (Difflib.scored word l)) as [|[s m'] S]; [done|].
  simpl. intros [= -> _].
  assert ((s, m) ∈ Difflib.scored word l) as Hm by (rewrite <-Hp; by left).
  apply scored_iff in Hm as (Hin & Hc & ->).
  split; [done|split; [done|]]. intros x Hx Hcx.
  assert ((Difflib.ratio (Difflib.seq_of x) (Difflib.seq_of word), x)
            ∈ (Difflib.ratio (Difflib.seq_of m) (Difflib.seq_of word), m) :: S) as Hxs.
  { rewrite Hp. by apply scored_iff. }
  apply elem_of_cons in Hxs as [[= Hr _]|Hxs]; [rewrite Hr; apply Qle_refl|].
  apply StronglySorted_cons in Hs as [Hall _].
  rewrite Forall_forall in Hall. by apply (tuple_ge_score _ _ (Hall _ Hxs)).
Qed.

Lemma get_close_matches_nil word l :
  Difflib.get_close_matches word l = [] ↔
  ∀ x, x ∈ l → Difflib.close_enough word x = false.
Proof.
  unfold Difflib.get_close_matches, Difflib.nlargest.
  pose proof (merge_sort_Permutation Difflib.tuple_ge (Difflib.scored word l)) as Hp.
  split.
  - intros H x Hx. apply not_true_is_false. intros Hc.
    assert ((Difflib.ratio (Difflib.seq_of x) (Difflib.seq_of word), x)
              ∈ merge_sort Difflib.tuple_ge (Difflib.scored word l)) as Hxs.
    { rewrite Hp. by apply scored_iff. }
    destruct (merge_sort _ _) as [|y S]; [by apply elem_of_nil in Hxs|done].
  - intros H. clear Hp. unfold Difflib.scored.
    by rewrite filter_nil_std.
Qed.

Lemma original_case_is_Some ord m :
  m ∈ List.map PyStr.lower ord → is_Some (original_case ord m).
Proof.
  intros (f & Hf & Hin)%list_elem_of_In%List.in_map_iff.
  destruct (original_case ord m) eqn:E; [done|].
  apply list_elem_of_In in Hin. by destruct (original_case_None _ _ E f Hin).
Qed.


(** ** A leading slash *)

Lemma startswith_slash_cons s : PyStr.startswith "/" ("/" +:+ s) = true.
Proof. apply startswith_app. by exists s. Qed.

Lemma index_slash_symmetric t x :
  (∀ e, documentation_file t e → PyStr.startswith "/" (rel e) = false) →
  PyStr.startswith "/" x = false →
  x ∈ all_files (init t) ↔ ("/" +:+ x) ∈ all_files (init t).
Proof.
  intros Hrel Hx. unfold init; simpl. rewrite !elem_of_build_file_index.
  split; intros (e & He & Hs); exists e; (split; [done|]);
    unfold index_variants in *; rewrite !elem_of_cons, elem_of_nil in *.
  - destruct Hs as [->|[->|[->|[->|[]]]]];
      [tauto|tauto|by rewrite startswith_slash_cons in Hx..].
  - pose proof (Hrel e He) as Hr.
    destruct (with_suffix_empty_take (rel e) (documentation_file_rel_nonempty t e He))
      as [k Hk].
    destruct Hs as [Hs|[Hs|[Hs|[Hs|[]]]]].
    + rewrite <-Hs in Hr. by rewrite startswith_slash_cons in Hr.
    + rewrite <-(startswith_take_char "/" k), <-Hk, <-Hs in Hr.
      by rewrite startswith_slash_cons in Hr.
    + rewrite !string_app_cons, !string_app_nil_l in Hs. injection Hs as ->. tauto.
    + rewrite !string_app_cons, !string_app_nil_l in Hs. injection Hs as ->. tauto.
Qed.

Lemma endswith_slash ext x :
  PyStr.startswith "/" ext = false →
  PyStr.endswith ext ("/" +:+ x) = PyStr.endswith ext x.
Proof.
  intros Hext. apply eq_true_iff_eq. rewrite !endswith_app. split.
  - intros [[|c pre] Hp].
    + rewrite string_app_nil_l in Hp.
      by rewrite <-Hp, startswith_slash_cons in Hext.
    + rewrite !string_app_cons, string_app_nil_l in Hp. injection Hp as _ ->. by exists pre.
  - intros [pre ->]. exists ("/" +:+ pre). by rewrite string_app_assoc.
Qed.

Lemma endswith_any_slash x :
  PyStr.endswith_any known_extensions ("/" +:+ x) = PyStr.endswith_any known_extensions x.
Proof.
  unfold PyStr.endswith_any, known_extensions. simpl.
  by rewrite !endswith_slash.
Qed.

Lemma strip_from_slash c u :
  c ≠ "/"%char → strip_from c ("/" +:+ u) = "/" +:+ strip_from c u.
Proof.
  intros Hc. rewrite string_app_cons, string_app_nil_l. cbn [strip_from].
  destruct (Ascii.eqb_spec "/" c) as [<-|_]; [done|]. reflexivity.
Qed.

Lemma normalize_slash u :
  PyStr.startswith "./" (url_remainder u) = false →
  PyStr.startswith "../" (url_remainder u) = false →
  normalize_internal_path ("/" +:+ u) = "/" +:+ normalize_internal_path u.
Proof.
  unfold url_remainder. intros Hd Hdd. rewrite !normalize_internal_path_cases.
  rewrite !strip_from_slash by done. rewrite Hd, Hdd.
  set (r := strip_from "?" (strip_from "#" u)).
  change (PyStr.startswith "./" ("/" +:+ r)) with false.
  change (PyStr.startswith "../" ("/" +:+ r)) with false.
  cbv iota. rewrite endswith_any_slash.
  destruct (PyStr.endswith_any known_extensions r); [done|]. by rewrite string_app_assoc.
Qed.

Lemma startswith_slash_head c s :
  PyStr.startswith "/" (String c s) = true ↔ c = "/"%char.
Proof.
  rewrite startswith_app. split.
  - intros [r H]. rewrite string_app_cons in H. by injection H.
  - intros ->. by exists s.
Qed.

Lemma startswith_slash_app_r s r :
  s ≠ "" → PyStr.startswith "/" s = false → PyStr.startswith "/" (s +:+ r) = false.
Proof.
  destruct s as [|c s]; [done|]. intros _ H. rewrite string_app_cons.
  apply not_true_is_false. rewrite startswith_slash_head. intros ->.
  by rewrite (proj2 (startswith_slash_head "/" s)) in H.
Qed.

Lemma normalize_no_slash u :
  PyStr.startswith "/" (url_remainder u) = false →
  PyStr.startswith "./" (url_remainder u) = false →
  PyStr.startswith "../" (url_remainder u) = false →
  PyStr.startswith "/" (normalize_internal_path u) = false.
Proof.
  unfold url_remainder. intros Hs Hd Hdd. rewrite normalize_internal_path_cases.
  rewrite Hd, Hdd. set (r := strip_from "?" (strip_from "#" u)) in *.
  clearbody r.
  destruct (PyStr.endswith_any known_extensions r); [exact Hs|].
  destruct r as [|c r]; [reflexivity|]. by apply startswith_slash_app_r.
Qed.

Lemma lstrip_no_slash s : PyStr.startswith "/" s = false → PyStr.lstrip "/" s = s.
Proof.
  destruct s as [|c s]; [done|]. intros H. cbn [PyStr.lstrip].
  destruct (Ascii.eqb_spec c "/") as [->|_]; [|done].
  by rewrite (proj2 (startswith_slash_head "/" s)) in H.
Qed.

Lemma normalized_extension_or_parent url :
  PyStr.endswith_any known_extensions (normalize_internal_path url) = true ∨
  PyStr.startswith "../" (normalize_internal_path url) = true.
Proof.
  rewrite normalize_internal_path_cases.
  set (r := strip_from "?" (strip_from "#" url)).
  destruct (PyStr.startswith "./" r).
  - left. destruct (PyStr.endswith_any known_extensions (PyStr.drop 2 r)) eqn:E; [done|].
    apply endswith_any_mdx.
  - destruct (PyStr.startswith "../" r) eqn:E'; [by right|]. left.
    destruct (PyStr.endswith_any known_extensions r) eqn:E; [done|].
    apply endswith_any_mdx.
Qed.

Lemma normalized_nonempty url : normalize_internal_path url ≠ "".
Proof.
  pose proof (normalized_extension_or_parent url) as H.
  intros E. rewrite E in H. destruct H as [H|H]; by vm_compute in H.
Qed.

(** X16: when no page has a relative path that starts with a slash, a
    url whose remainder starts with neither a slash nor a dot-relative
    prefix is valid exactly when the same url with one slash in front
    is. *)
Theorem leading_slash_is_immaterial (ord : list string) (t : Tree) (l l' : Link) :
  (∀ e, documentation_file t e → PyStr.startswith "/" (rel e) = false) →
  PyStr.startswith "/" (url_remainder (link_url l)) = false →
  PyStr.startswith "./" (url_remainder (link_url l)) = false →
  PyStr.startswith "../" (url_remainder (link_url l)) = false →
  link_url l' = "/" +:+ link_url l →
  valid (validate_internal_link ord (all_files (init t)) l') =
  valid (validate_internal_link ord (all_files (init t)) l).
Proof.
  intros Hrel Hs Hd Hdd Hurl. apply eq_true_iff_eq.
  rewrite !validate_valid, Hurl, normalize_slash by done.
  pose proof (normalize_no_slash _ Hs Hd Hdd) as Hn.
  set (n := normalize_internal_path (link_url l)) in *.
  assert (n ≠ "") as Hne.
  { apply normalized_nonempty. }
  unfold possible_paths.
  change (PyStr.lstrip "/" ("/" +:+ n)) with (PyStr.lstrip "/" n).
  rewrite (lstrip_no_slash n Hn), !string_app_assoc.
  pose proof (index_slash_symmetric t n Hrel Hn) as S0.
  pose proof (index_slash_symmetric t (n +:+ ".mdx") Hrel
                (startswith_slash_app_r n _ Hne Hn)) as S1.
  pose proof (index_slash_symmetric t (n +:+ ".md") Hrel
                (startswith_slash_app_r n _ Hne Hn)) as S2.
  split; intros (p & Hp & Hin); rewrite !elem_of_cons, elem_of_nil in Hp.
  - destruct Hp as [->|[->|[->|[->|[->|[]]]]]].
    + exists n. split; [by left|]. by apply S0.
    + exists n. split; [by left|done].
    + exists n. split; [by left|]. by apply S0.
    + exists (n +:+ ".mdx"). split; [do 3 right; by left|]. by apply S1.
    + exists (n +:+ ".md"). split; [do 4 right; by left|]. by apply S2.
  - destruct Hp as [->|[->|[->|[->|[->|[]]]]]].
    + exists n. split; [right; by left|done].
    + exists n. split; [right; by left|done].
    + exists ("/" +:+ n). split; [by left|done].
    + exists ("/" +:+ n +:+ ".mdx"). split; [do 3 right; by left|]. by apply S1.
    + exists ("/" +:+ n +:+ ".md"). split; [do 4 right; by left|]. by apply S2.
Qed.

Lemma leading_slash_is_immaterial_witness :
  valid (validate_internal_link [] (all_files (init intor_tree))
           {| link_file := "guide/other.mdx"; link_line := 1; link_type := markdown;
              link_text := "intro"; link_url := "/guide/intro";
              link_raw_match := "[intro](/guide/intro)" |}) =
  valid (validate_internal_link [] (all_files (init intor_tree))
           {| link_file := "guide/other.mdx"; link_line := 1; link_type := markdown;
              link_text := "intro"; link_url := "guide/intro";
              link_raw_match := "[intro](guide/intro)" |}).
Proof.
  apply (leading_slash_is_immaterial [] intor_tree).
  - intros e (He & _). apply list_elem_of_In in He.
    by destruct He as [<-|[<-|[]]].
  - reflexivity.
  - reflexivity.
  - reflexivity.
  - reflexivity.
Defined.

(** ** Order of the extracted links *)

Lemma finditer_go_starts m s : ∀ pos skip,
  Forall (fun x => pos + skip ≤ x.1.1.1) (Re.finditer_go m s pos skip) ∧
  StronglySorted (fun x y => x.1.1.1 < y.1.1.1) (Re.finditer_go m s pos skip).
Proof.
  induction s as [|c s IH]; intros pos skip; simpl; [by split; constructor|].
  destruct skip as [|skip].
  - destruct (m (String c s)) as [[[text url] len]|].
    + destruct (IH (S pos) (len - 1)) as [Hall Hs]. split.
      * constructor; [simpl; lia|]. eapply Forall_impl; [exact Hall|]. simpl. lia.
      * constructor; [done|]. eapply Forall_impl; [exact Hall|]. simpl. lia.
    + destruct (IH (S pos) 0) as [Hall Hs]. split; [|done].
      eapply Forall_impl; [exact Hall|]. simpl. lia.
  - destruct (IH (S pos) skip) as [Hall Hs]. split; [|done].
    eapply Forall_impl; [exact Hall|]. simpl. lia.
Qed.

Lemma count_take_mono c a : ∀ b s,
  a ≤ b → PyStr.count c (PyStr.take a s) ≤ PyStr.count c (PyStr.take b s).
Proof.
  induction a as [|a IH]; intros b s Hab; [destruct s; simpl; lia|].
  destruct b as [|b]; [lia|]. destruct s as [|d s]; simpl; [lia|].
  specialize (IH b s). lia.
Qed.

Lemma StronglySorted_map {A B} (R : relation A) (R' : relation B) (f : A → B) l :
  (∀ x y, R x y → R' (f x) (f y)) →
  StronglySorted R l → StronglySorted R' (List.map f l).
Proof.
  intros Hf. induction 1 as [|x l Hs IH Hall]; simpl; constructor; [done|].
  apply Forall_forall. intros y (z & <- & Hz)%list_elem_of_In%List.in_map_iff.
  apply Hf. rewrite Forall_forall in Hall. apply Hall. by apply list_elem_of_In.
Qed.

Lemma links_of_pattern_sorted file content p :
  StronglySorted by_line (links_of_pattern file content p) ∧
  Forall (fun l => link_type l = p.2) (links_of_pattern file content p).
Proof.
  unfold links_of_pattern. split.
  - apply (StronglySorted_map (fun x y => x.1.1.1 < y.1.1.1)).
    + intros [[[s1 t1] u1] r1] [[[s2 t2] u2] r2] Hlt. unfold by_line; simpl in *.
      pose proof (count_take_mono "010" s1 s2 content). lia.
    + apply finditer_go_starts.
  - apply Forall_forall. intros l (x & <- & _)%list_elem_of_In%List.in_map_iff.
    by destruct x as [[[??]?]?].
Qed.

Lemma filter_type_same ty (ls : list Link) :
  Forall (fun l => link_type l = ty) ls →
  List.filter (fun l => bool_decide (link_type l = ty)) ls = ls.
Proof.
  induction 1 as [|l ls Hl _ IH]; simpl; [done|].
  by rewrite bool_decide_eq_true_2, IH.
Qed.

Lemma filter_type_other ty ty' (ls : list Link) :
  ty ≠ ty' → Forall (fun l => link_type l = ty') ls →
  List.filter (fun l => bool_decide (link_type l = ty)) ls = [].
Proof.
  intros Hne. induction 1 as [|l ls Hl _ IH]; simpl; [done|].
  rewrite bool_decide_eq_false_2, IH; [done|]. by rewrite Hl.
Qed.

(** ** Size of the index *)

Lemma size_union_le (X Y : gset string) : size (X ∪ Y) ≤ size X + size Y.
Proof.
  rewrite size_union_alt.
  assert (Y ∖ X ⊆ Y) as H by (by intros x [? _]%elem_of_difference).
  apply subseteq_size in H. lia.
Qed.

Lemma size_add_le (x : string) (X : gset string) : size ({[ x ]} ∪ X) ≤ 1 + size X.
Proof. pose proof (size_union_le {[ x ]} X) as H. by rewrite size_singleton in H. Qed.

Lemma size_index_add idx e :
  size (index_add idx e) ≤ size idx + (if is_file e then 4 else 0).
Proof.
  unfold index_add. destruct (is_file e); [|lia].
  pose proof (size_add_le (rel e) idx).
  pose proof (size_add_le (Pathlib.with_suffix_empty (rel e)) ({[ rel e ]} ∪ idx)).
  pose proof (size_add_le ("/" +:+ rel e)
                ({[ Pathlib.with_suffix_empty (rel e) ]} ∪ ({[ rel e ]} ∪ idx))).
  pose proof (size_add_le ("/" +:+ Pathlib.with_suffix_empty (rel e))
                ({[ "/" +:+ rel e ]} ∪
                 ({[ Pathlib.with_suffix_empty (rel e) ]} ∪ ({[ rel e ]} ∪ idx)))).
  lia.
Qed.

Lemma size_foldl_index_add es : ∀ idx,
  size (foldl index_add idx es) ≤ size idx + 4 * length (List.filter is_file es).
Proof.
  induction es as [|e es IH]; intros idx; simpl; [lia|].
  etrans; [apply IH|]. pose proof (size_index_add idx e).
  destruct (is_file e); simpl; lia.
Qed.

(** X18: the index holds at most four entries per file that is read,
    and none of them is the empty string. *)
Theorem index_size_bound (t : Tree) :
  size (all_files (init t)) ≤ 4 * length (scanned_files t) ∧
  "" ∉ all_files (init t).
Proof.
  split.
  - unfold init, _build_file_index, index_pattern, scanned_files; simpl.
    etrans; [apply size_foldl_index_add|].
    pose proof (size_foldl_index_add (Pathlib.glob ".mdx" t) ∅) as H.
    rewrite size_empty in H. rewrite length_app. lia.
  - intros H. by apply (index_entry_nonempty t "").
Qed.

(** ** Parent-relative links *)

Lemma strip_from_prefix c s : ∃ rest, s = strip_from c s +:+ rest.
Proof.
  induction s as [|d s [rest IH]]; [by exists ""|]. simpl.
  destruct (Ascii.eqb d c); [by exists (String d s)|].
  exists rest. by rewrite string_app_cons, <-IH.
Qed.

Lemma startswith_strip_from p c s :
  PyStr.startswith p (strip_from c s) = true → PyStr.startswith p s = true.
Proof.
  rewrite !startswith_app. intros [r Hr]. destruct (strip_from_prefix c s) as [rest Hs].
  exists (r +:+ rest). by rewrite <-string_app_assoc, <-Hr.
Qed.

Lemma startswith_dot_app_r s r :
  PyStr.startswith "." s = true → PyStr.startswith "." (s +:+ r) = true.
Proof.
  rewrite !startswith_app. intros [x ->]. exists (x +:+ r). by rewrite string_app_assoc.
Qed.

(** X19: a url that is parent-relative once fragment and query are
    cut off is an internal link whose normalized path is that
    remainder, without any extension added; when no page has a
    relative path that starts with a dot or a slash, the link is
    reported broken. *)
Theorem parent_relative_link_is_reported_broken
    (ord : list string) (t : Tree) (l : Link) :
  (∀ e, documentation_file t e →
        PyStr.startswith "." (rel e) = false ∧ PyStr.startswith "/" (rel e) = false) →
  l ∈ extracted t →
  PyStr.startswith "../" (url_remainder (link_url l)) = true →
  let r := url_remainder (link_url l) in
  is_internal_link (link_url l) = true ∧
  {| broken_link := l;
     broken_validation :=
       {| valid := false; target := r; suggestion := find_closest_match ord r |};
     broken_confidence := confidence_of (find_closest_match ord r) |}
  ∈ broken_links (process_all_files ord t (init t)).
Proof.
  intros Hrel Hl Hdd r. change (PyStr.startswith "../" r = true) in Hdd.
  assert (is_internal_link (link_url l) = true) as Hint.
  { unfold r, url_remainder in Hdd.
    do 2 apply startswith_strip_from in Hdd. apply startswith_app in Hdd as [x ->].
    reflexivity. }
  assert (normalize_internal_path (link_url l) = r) as Hn.
  { rewrite normalize_internal_path_cases.
    change (strip_from "?" (strip_from "#" (link_url l))) with r.
    destruct (PyStr.startswith "./" r) eqn:Hd; [|by rewrite Hdd].
    apply startswith_dot_exclusive in Hd. by rewrite Hd in Hdd. }
  split; [done|].
  apply elem_of_broken_links. exists l. split; [done|].
  unfold broken_of, is_internal. rewrite Hint. cbv zeta.
  unfold validate_internal_link. rewrite Hn.
  destruct (first_indexed _ _) as [p|] eqn:E; [|done].
  apply first_indexed_Some in E as [Hp Hin].
  destruct (index_entry_not_hidden t p Hrel Hin) as [H1 H2].
  assert (PyStr.startswith "." r = true) as Hdot.
  { apply startswith_app in Hdd as [x Hx]. apply startswith_app. exists ("./" +:+ x).
    by rewrite Hx. }
  assert (PyStr.lstrip "/" r = r) as Hstrip.
  { apply startswith_app in Hdot as [x Hx]. by rewrite Hx. }
  unfold possible_paths in Hp. rewrite Hstrip, !elem_of_cons, elem_of_nil in Hp.
  destruct Hp as [->|[->|[->|[->|[->|[]]]]]].
  - by rewrite Hdot in H1.
  - by rewrite Hdot in H1.
  - by rewrite startswith_slash_app, Hdot in H2.
  - by rewrite (startswith_dot_app_r _ _ Hdot) in H1.
  - by rewrite (startswith_dot_app_r _ _ Hdot) in H1.
Qed.

Lemma parent_relative_link_is_reported_broken_witness :
  is_internal_link (link_url parent_link) = true ∧
  {| broken_link := parent_link;
     broken_validation :=
       {| valid := false; target := "../index";
          suggestion := find_closest_match [] "../index" |};
     broken_confidence := confidence_of (find_closest_match [] "../index") |}
  ∈ broken_links (process_all_files [] parent_tree (init parent_tree)).
Proof.
  apply (parent_relative_link_is_reported_broken [] parent_tree parent_link).
  - intros e (He & _). apply list_elem_of_In in He.
    by destruct He as [<-|[<-|[]]].
  - vm_compute. constructor.
  - reflexivity.
Defined.

(** ** A clean report *)

Lemma omap_nil_iff {A B} (f : A → option B) (l : list A) :
  omap f l = [] ↔ ∀ x, x ∈ l → f x = None.
Proof.
  induction l as [|x l IH]; [by split; [intros _ ? ?%elem_of_nil|]|].
  cbn [omap list_omap]. destruct (f x) eqn:E.
  - split; [done|]. intros H. specialize (H x (list_elem_of_here _ _)). congruence.
  - rewrite IH. split.
    + intros H y [->|Hy]%elem_of_cons; [done|by apply H].
    + intros H y Hy. apply H. by right.
Qed.

(** X20: the summary counts no broken internal link exactly when
    every internal link that was found is valid. *)
Theorem no_broken_links_iff_all_valid (ord : list string) (t : Tree) :
  broken_internal_links (summary (run ord t)) = 0 ↔
  ∀ l, l ∈ all_links (run ord t) →
       is_internal_link (link_url l) = true →
       valid (validate_internal_link ord (all_files (init t)) l) = true.
Proof.
  unfold run. rewrite process_all_files_after.
  unfold generate_report, after_links; simpl.
  rewrite length_zero_iff_nil, omap_nil_iff.
  split; intros H l Hl.
  - intros Hint. specialize (H l Hl). unfold broken_of, is_internal in H.
    rewrite Hint in H. cbv zeta in H.
    by destruct (valid (validate_internal_link ord (_build_file_index t ∅) l)).
  - unfold broken_of, is_internal.
    destruct (is_internal_link (link_url l)) eqn:Hint; [|done].
    cbv zeta. by rewrite (H l Hl Hint).
Qed.

(** ** When [is_file()] raises *)

Lemma for_each_returns {S A} (body : S → A → result S) (f : S → A → S) (l : list A) :
  (∀ s x, x ∈ l → body s x = Ok (f s x)) →
  ∀ s, for_each body s l = Ok (foldl f s l).
Proof.
  induction l as [|x l IH]; intros H s; simpl; [done|].
  rewrite (H s x) by by left. simpl. apply IH. intros s' y Hy. apply H. by right.
Qed.

Lemma for_each_raises {S A} (body : S → A → result S) (l : list A) (x : A) :
  x ∈ l → (∀ s, ∃ msg, body s x = Raise msg) →
  ∀ s, ∃ msg, for_each body s l = Raise msg.
Proof.
  induction l as [|y l IH]; intros Hx Hraise s; [by apply elem_of_nil in Hx|].
  simpl. apply elem_of_cons in Hx as [<-|Hx].
  - destruct (Hraise s) as [msg ->]. by exists msg.
  - destruct (body s y) as [s'|msg]; simpl; [by apply IH|by exists msg].
Qed.

Lemma filter_map_swap {A B} (p : A → bool) (q : B → bool) (g : A → B) (l : list A) :
  (∀ x, q (g x) = p x) →
  List.filter q (List.map g l) = List.map g (List.filter p l).
Proof.
  intros H. induction l as [|x l IH]; simpl; [done|].
  rewrite H. destruct (p x); simpl; by rewrite IH.
Qed.

Lemma glob_tree_of ext fs :
  Pathlib.glob ext (tree_of fs) =
  List.map (fun p => seen p (returned p)) (Checked.glob ext fs).
Proof. unfold Pathlib.glob, tree_of, Checked.glob. by apply filter_map_swap. Qed.

Lemma foldl_map_std {S A B} (f : S → B → S) (g : A → B) (l : list A) : ∀ s,
  foldl f s (List.map g l) = foldl (fun s x => f s (g x)) s l.
Proof. induction l as [|x l IH]; intros s; simpl; [done|]. apply IH. Qed.

Lemma elem_of_checked_glob p ext fs :
  p ∈ Checked.glob ext fs ↔
  p ∈ fs ∧ PyStr.endswith ext (Pathlib.name (path_rel p)) = true.
Proof. unfold Checked.glob. by rewrite !list_elem_of_In, List.filter_In. Qed.

Lemma matched_glob p ext fs :
  p ∈ Checked.glob ext fs → ext = ".mdx" ∨ ext = ".md" → p ∈ fs ∧ matched p = true.
Proof.
  intros [Hp He]%elem_of_checked_glob Hext. split; [done|]. unfold matched.
  destruct Hext as [-> | ->]; rewrite He; [done|by rewrite orb_true_r].
Qed.

Lemma calls_return_returned fs p :
  calls_return fs → p ∈ fs → matched p = true → path_is_file p = Ok (returned p).
Proof. intros H Hp Hm. unfold returned. by destruct (H p Hp Hm) as [b ->]. Qed.

Lemma checked_index_pattern_returns fs ext idx :
  calls_return fs → ext = ".mdx" ∨ ext = ".md" →
  Checked.index_pattern fs idx ext = Ok (index_pattern (tree_of fs) idx ext).
Proof.
  intros H Hext. unfold Checked.index_pattern, index_pattern.
  rewrite glob_tree_of, foldl_map_std.
  apply for_each_returns. intros s p Hp.
  destruct (matched_glob p ext fs Hp Hext) as [Hin Hm].
  unfold Checked.index_add. by rewrite (calls_return_returned fs p H Hin Hm).
Qed.

Lemma checked_init_returns fs :
  calls_return fs → Checked.init fs = Ok (init (tree_of fs)).
Proof.
  intros H. unfold Checked.init, Checked._build_file_index, init, _build_file_index, patterns.
  simpl. rewrite checked_index_pattern_returns by auto. simpl.
  by rewrite checked_index_pattern_returns by auto.
Qed.

Lemma checked_process_pattern_returns ord fs ext v :
  calls_return fs → ext = ".mdx" ∨ ext = ".md" →
  Checked.process_pattern ord fs v ext = Ok (process_pattern ord (tree_of fs) v ext).
Proof.
  intros H Hext. unfold Checked.process_pattern, process_pattern.
  rewrite glob_tree_of, foldl_map_std.
  apply for_each_returns. intros s p Hp.
  destruct (matched_glob p ext fs Hp Hext) as [Hin Hm].
  unfold Checked.process_file. by rewrite (calls_return_returned fs p H Hin Hm).
Qed.

Lemma checked_process_returns ord fs v :
  calls_return fs →
  Checked.process_all_files ord fs v = Ok (process_all_files ord (tree_of fs) v).
Proof.
  intros H. unfold Checked.process_all_files, process_all_files, patterns. simpl.
  rewrite checked_process_pattern_returns by auto. simpl.
  by rewrite checked_process_pattern_returns by auto.
Qed.

Lemma checked_run_returns ord fs :
  calls_return fs → Checked.run ord fs = Ok (run ord (tree_of fs)).
Proof.
  intros H. unfold Checked.run, run.
  rewrite checked_init_returns by done. simpl.
  by rewrite checked_process_returns by done.
Qed.

Lemma checked_index_pattern_raises fs ext p msg idx :
  p ∈ fs → PyStr.endswith ext (Pathlib.name (path_rel p)) = true →
  path_is_file p = Raise msg →
  ∃ msg', Checked.index_pattern fs idx ext = Raise msg'.
Proof.
  intros Hp He Hr. unfold Checked.index_pattern.
  apply for_each_raises with p; [by apply elem_of_checked_glob|].
  intros s. exists msg. unfold Checked.index_add. by rewrite Hr.
Qed.

(** C6: a page whose [is_file()] raises, as it does for a page in a
    directory that can be listed but not searched, ends the run while
    the index is built: no validator is made and no report is
    produced, whatever the other files are. *)
Theorem unsearchable_page_aborts_scan
    (ord : list string) (fs : FileSystem) (p : Path) (msg : string) :
  p ∈ fs → matched p = true → path_is_file p = Raise msg →
  ∃ msg', Checked.init fs = Raise msg' ∧ Checked.run ord fs = Raise msg'.
Proof.
  intros Hp Hm Hr.
  assert (∃ msg', Checked._build_file_index fs ∅ = Raise msg') as [msg' Hb].
  { unfold Checked._build_file_index, patterns. simpl.
    unfold matched in Hm. apply orb_true_iff in Hm as [Hm|Hm].
    - destruct (checked_index_pattern_raises fs ".mdx" p msg ∅ Hp Hm Hr) as [m ->].
      by exists m.
    - destruct (Checked.index_pattern fs ∅ ".mdx") as [idx|m]; [|by exists m]. simpl.
      destruct (checked_index_pattern_raises fs ".md" p msg idx Hp Hm Hr) as [m ->].
      by exists m. }
  exists msg'. unfold Checked.run, Checked.init. by rewrite Hb.
Qed.

Lemma unsearchable_page_aborts_scan_witness :
  ∃ msg', Checked.init locked_fs = Raise msg' ∧ Checked.run [] locked_fs = Raise msg'.
Proof.
  apply (unsearchable_page_aborts_scan [] locked_fs
           {| path_rel := "private/notes.md";
              path_is_file := Raise "PermissionError";
              path_read_text := Raise "PermissionError" |} "PermissionError").
  - right. left.
  - reflexivity.
  - reflexivity.
Defined.

(** What the run of [locked_fs] gives. *)
Example locked_fs_run : Checked.run [] locked_fs = Raise "PermissionError".
Proof. reflexivity. Qed.

Lemma all_links_readable ord t :
  all_links (run ord t) =
  List.concat (List.map extract_links_from_file (List.filter readable (scanned_files t))).
Proof.
  unfold run. rewrite process_all_files_after. simpl.
  symmetry. apply concat_filter_nil. intros e He.
  unfold readable in He. destruct (read_text e) eqn:E; [done|].
  by apply extract_unreadable with msg.
Qed.

Lemma run_blank_unreadable ord t : run ord t = run ord (List.map blank_unreadable t).
Proof.
  unfold run. rewrite !process_all_files_after.
  unfold generate_report, after_links, init; simpl.
  by rewrite !glob_blank, !length_app, !length_map, extracted_blank, build_file_index_blank.
Qed.

(** X21: when every call of [is_file()] returns, the run produces a
    report, whatever cannot be read or decoded: such a file
    contributes no links, the report lists the links of the readable
    files in order, and it is the report of the same tree with the
    unreadable files empty. *)
Theorem unreadable_text_is_skipped (ord : list string) (fs : FileSystem) :
  (∀ p, p ∈ fs → matched p = true → ∃ b, path_is_file p = Ok b) →
  ∃ report,
    Checked.run ord fs = Ok report ∧
    (∀ e msg, read_text e = Raise msg → extract_links_from_file e = []) ∧
    all_links report =
      List.concat (List.map extract_links_from_file
                     (List.filter readable (scanned_files (tree_of fs)))) ∧
    report = run ord (List.map blank_unreadable (tree_of fs)).
Proof.
  intros H. exists (run ord (tree_of fs)).
  split; [by apply checked_run_returns|split; [apply extract_unreadable|split]].
  - apply all_links_readable.
  - apply run_blank_unreadable.
Qed.

Lemma unreadable_text_is_skipped_witness :
  ∃ report,
    Checked.run [] undecodable_fs = Ok report ∧
    (∀ e msg, read_text e = Raise msg → extract_links_from_file e = []) ∧
    all_links report =
      List.concat (List.map extract_links_from_file
                     (List.filter readable (scanned_files (tree_of undecodable_fs)))) ∧
    report = run [] (List.map blank_unreadable (tree_of undecodable_fs)).
Proof.
  apply (unreadable_text_is_skipped [] undecodable_fs).
  intros p Hp _. apply list_elem_of_In in Hp.
  destruct Hp as [<-|[<-|[]]]; by eexists.
Defined.

(** ** Confidence of a broken-link record *)



(** ** Two runs over one tree *)







(** ** Attribute links on ASCII text *)

(** X10: on ASCII text, a link taken from an attribute has no text;
    its raw match is the attribute name in any letter case, an equals
    sign, a quote, the url and a quote; the url contains no quote of
    either kind, and the closing quote need not be the opening one. *)
Theorem attribute_link_shape (e : Entry) (l : Link) :
  (∀ content, read_text e = Ok content → is_ascii content = true) →
  l ∈ extract_links_from_file e →
  link_type l ≠ markdown →
  ∃ name q1 q2,
    link_raw_match l = name +:+ String q1 (link_url l +:+ String q2 "") ∧
    PyStr.lower name = (match link_type l with href => "href=" | _ => "src=" end) ∧
    Re.is_quote q1 = true ∧ Re.is_quote q2 = true ∧
    link_text l = "" ∧
    PyStr.count "034" (link_url l) = 0 ∧ PyStr.count "'" (link_url l) = 0.
Proof.
  intros _ (content & p & k & text & url & len & Hread & Hp & Hm & ->)%extract_elem Hty.
  destruct p as [m ty]. simpl in *.
  destruct (attribute_pattern (m, ty) Hp Hty) as (attr & Hattr & Hcase). simpl in *.
  subst m.
  apply match_attr_Some in Hm
    as (nm & q1 & q2 & rest & Hs & -> & Hn & Hq1 & Hq2 & -> & _ & Hd & Hsq).
  exists nm, q1, q2. rewrite Hs, take_app_length.
  split; [done|split; [|done]].
  by destruct Hcase as [[-> ->]|[-> ->]].
Qed.

Lemma attribute_link_shape_witness :
  ∃ name q1 q2,
    link_raw_match upper_scheme_link =
      name +:+ String q1 (link_url upper_scheme_link +:+ String q2 "") ∧
    PyStr.lower name = "href=" ∧
    Re.is_quote q1 = true ∧ Re.is_quote q2 = true ∧
    link_text upper_scheme_link = "" ∧
    PyStr.count "034" (link_url upper_scheme_link) = 0 ∧
    PyStr.count "'" (link_url upper_scheme_link) = 0.
Proof.
  apply (attribute_link_shape
           {| rel := "index.md"; is_file := true;
              read_text := Ok "<a HREF='HTTP://example.com'>site</a>" |}
           upper_scheme_link).
  - intros content [= <-]. reflexivity.
  - vm_compute. constructor.
  - discriminate.
Defined.

(** ** The fuzzy search on ASCII names *)

(** X14: on ASCII index entries and an ASCII target, a suggestion is
    an index entry whose lower-case form passes the three cutoff tests
    against the lower-cased target, so its similarity is at least 0.6,
    and no index entry that passes them scores higher. *)
Theorem suggestion_is_best_indexed_match
    (ord : list string) (idx : gset string) (target s : string) :
  (∀ f, f ∈ idx → is_ascii f = true) →
  is_ascii target = true →
  ord ≡ₚ elements idx →
  find_closest_match ord target = Some s →
  s ∈ idx ∧
  (Difflib.cutoff <=
     Difflib.ratio (Difflib.seq_of (PyStr.lower s)) (Difflib.seq_of (PyStr.lower target)))%Q ∧
  ∀ f, f ∈ idx →
       Difflib.close_enough (PyStr.lower target) (PyStr.lower f) = true →
       (Difflib.ratio (Difflib.seq_of (PyStr.lower f)) (Difflib.seq_of (PyStr.lower target)) <=
        Difflib.ratio (Difflib.seq_of (PyStr.lower s)) (Difflib.seq_of (PyStr.lower target)))%Q.
Proof.
  intros _ _ Hord Hs. unfold find_closest_match in Hs.
  destruct (Difflib.get_close_matches _ _) as [|m ms] eqn:E; [done|].
  apply get_close_matches_head in E as (_ & Hc & Hmax).
  apply original_case_elem in Hs as [Hin <-].
  split; [|split].
  - rewrite Hord in Hin. by apply elem_of_elements.
  - by apply close_enough_ratio.
  - intros f Hf Hcf. apply Hmax; [|done].
    apply list_elem_of_In, List.in_map. apply list_elem_of_In.
    rewrite Hord. by apply elem_of_elements.
Qed.

Lemma index_is_ascii (idx : gset string) :
  forallb is_ascii (elements idx) = true → ∀ f, f ∈ idx → is_ascii f = true.
Proof.
  rewrite forallb_forall. intros H f Hf%elem_of_elements. by apply H, list_elem_of_In.
Qed.

Lemma suggestion_is_best_indexed_match_witness :
  "/guide/intro.mdx" ∈ all_files (init intor_tree) ∧
  (Difflib.cutoff <=
     Difflib.ratio (Difflib.seq_of (PyStr.lower "/guide/intro.mdx"))
       (Difflib.seq_of (PyStr.lower "/guide/intor.mdx")))%Q ∧
  ∀ f, f ∈ all_files (init intor_tree) →
       Difflib.close_enough (PyStr.lower "/guide/intor.mdx") (PyStr.lower f) = true →
       (Difflib.ratio (Difflib.seq_of (PyStr.lower f))
          (Difflib.seq_of (PyStr.lower "/guide/intor.mdx")) <=
        Difflib.ratio (Difflib.seq_of (PyStr.lower "/guide/intro.mdx"))
          (Difflib.seq_of (PyStr.lower "/guide/intor.mdx")))%Q.
Proof.
  apply (suggestion_is_best_indexed_match (elements (all_files (init intor_tree)))).
  - apply index_is_ascii. by vm_compute.
  - reflexivity.
  - reflexivity.
  - by vm_compute.
Defined.

(** X15: on ASCII index entries and an ASCII target, the fuzzy search
    returns nothing exactly when no index entry passes the three
    cutoff tests; as soon as one does, there is a suggestion. *)
Theorem no_suggestion_iff_nothing_close
    (ord : list string) (idx : gset string) (target : string) :
  (∀ f, f ∈ idx → is_ascii f = true) →
  is_ascii target = true →
  ord ≡ₚ elements idx →
  (find_closest_match ord target = None ↔
   ∀ f, f ∈ idx → Difflib.close_enough (PyStr.lower target) (PyStr.lower f) = false).
Proof.
  intros _ _ Hord. unfold find_closest_match.
  destruct (Difflib.get_close_matches _ _) as [|m ms] eqn:E.
  - split; [|done]. intros _ f Hf.
    apply (proj1 (get_close_matches_nil _ _) E).
    apply list_elem_of_In, List.in_map. apply list_elem_of_In.
    rewrite Hord. by apply elem_of_elements.
  - pose proof E as (Hm & Hc & _)%get_close_matches_head.
    destruct (original_case_is_Some ord m Hm) as [s Hs]. rewrite Hs.
    split; [done|]. intros Hall. exfalso.
    apply original_case_elem in Hs as [Hin <-].
    rewrite Hord in Hin. apply elem_of_elements in Hin.
    by rewrite (Hall s Hin) in Hc.
Qed.

Lemma no_suggestion_iff_nothing_close_witness :
  find_closest_match (elements (all_files (init no_match_tree))) "reference/rest-api.mdx" = None ↔
  ∀ f, f ∈ all_files (init no_match_tree) →
       Difflib.close_enough (PyStr.lower "reference/rest-api.mdx") (PyStr.lower f) = false.
Proof.
  apply (no_suggestion_iff_nothing_close (elements (all_files (init no_match_tree)))).
  - apply index_is_ascii. by vm_compute.
  - reflexivity.
  - reflexivity.
Defined.

(** ** Position of the extracted links *)

Lemma length_take_le n : ∀ s, String.length (PyStr.take n s) ≤ n.
Proof.
  induction n as [|n IH]; intros [|c s]; simpl; try lia. specialize (IH s). lia.
Qed.

Lemma finditer_go_apart m s : ∀ pos skip,
  StronglySorted (fun x y => x.1.1.1 + String.length x.2 ≤ y.1.1.1)
    (Re.finditer_go m s pos skip).
Proof.
  induction s as [|c s IH]; intros pos skip; simpl; [constructor|].
  destruct skip as [|skip]; [|apply IH].
  destruct (m (String c s)) as [[[text url] len]|]; [|apply IH].
  constructor; [apply IH|].
  destruct (finditer_go_starts m s (S pos) (len - 1)) as [Hall _].
  eapply Forall_impl; [exact Hall|]. intros y Hy.
  pose proof (length_take_le len (String c s)) as Hlen.
  cbn beta in Hy. cbn [fst snd]. lia.
Qed.

Lemma links_of_pattern_occurrences file content p :
  ∃ occ : list (nat * Link),
    List.map snd occ = links_of_pattern file content p ∧
    Forall (fun x => occurs_at content x.1 x.2) occ ∧
    StronglySorted
      (fun x y => x.1 + String.length (link_raw_match x.2) ≤ y.1) occ.
Proof.
  unfold links_of_pattern.
  set (mk := fun '(start, text, url, raw) =>
               {| link_file := file;
                  link_line := PyStr.count "010" (PyStr.take start content) + 1;
                  link_type := p.2; link_text := text; link_url := url;
                  link_raw_match := raw |}).
  exists (List.map (fun x => (x.1.1.1, mk x)) (Re.finditer p.1 content)).
  split; [|split].
  - rewrite List.map_map. by apply List.map_ext.
  - apply Forall_forall. intros y (x & <- & Hx)%list_elem_of_In%List.in_map_iff.
    apply list_elem_of_In, finditer_go_elem in Hx as (k & text & url & len & -> & _).
    unfold occurs_at; simpl. split; [done|].
    exists (PyStr.drop len (PyStr.drop k content)). by rewrite take_drop_string.
  - apply (StronglySorted_map
             (fun x y : nat * string * string * string =>
                x.1.1.1 + String.length x.2 ≤ y.1.1.1)); [|apply finditer_go_apart].
    by intros [[[s1 t1] u1] r1] [[[s2 t2] u2] r2].
Qed.

(** X17: the links of a file come grouped by kind, markdown links
    first, then [href] attributes, then [src] attributes, and within
    each kind in the order of their position in the text: the links
    of a kind occur at offsets of the text that increase from each
    link to the next by at least the length of its raw match, each
    link carrying the line of its offset, so that line numbers never
    decrease. *)
Theorem extracted_links_order (e : Entry) :
  let ls := extract_links_from_file e in
  let of_type ty := List.filter (fun l => bool_decide (link_type l = ty)) ls in
  ls = of_type markdown ++ of_type href ++ of_type src ∧
  (∀ ty, StronglySorted by_line (of_type ty)) ∧
  (∀ content ty, read_text e = Ok content →
     ∃ occ : list (nat * Link),
       List.map snd occ = of_type ty ∧
       Forall (fun x => occurs_at content x.1 x.2) occ ∧
       StronglySorted
         (fun x y => x.1 + String.length (link_raw_match x.2) ≤ y.1) occ).
Proof.
  intros ls of_type. unfold of_type, ls, extract_links_from_file, try_except.
  destruct (read_text e) as [content|];
    [|by split; [|split; [intros ty; constructor|]]].
  unfold link_patterns. cbn [List.map List.concat]. rewrite app_nil_r.
  destruct (links_of_pattern_sorted (rel e) content (Re.match_markdown, markdown)) as [S1 T1].
  destruct (links_of_pattern_sorted (rel e) content (Re.match_attr "href", href)) as [S2 T2].
  destruct (links_of_pattern_sorted (rel e) content (Re.match_attr "src", src)) as [S3 T3].
  pose proof (links_of_pattern_occurrences (rel e) content (Re.match_markdown, markdown)) as O1.
  pose proof (links_of_pattern_occurrences (rel e) content (Re.match_attr "href", href)) as O2.
  pose proof (links_of_pattern_occurrences (rel e) content (Re.match_attr "src", src)) as O3.
  simpl in T1, T2, T3.
  set (L1 := links_of_pattern _ _ (Re.match_markdown, markdown)) in *.
  set (L2 := links_of_pattern _ _ (Re.match_attr "href", href)) in *.
  set (L3 := links_of_pattern _ _ (Re.match_attr "src", src)) in *.
  assert (∀ ty, List.filter (fun l => bool_decide (link_type l = ty)) (L1 ++ L2 ++ L3) =
                match ty with markdown => L1 | href => L2 | src => L3 end) as Hf.
  { intros ty. rewrite !List.filter_app.
    destruct ty.
    - rewrite (filter_type_same _ _ T1), (filter_type_other markdown href _ ltac:(done) T2),
        (filter_type_other markdown src _ ltac:(done) T3). by rewrite !app_nil_r.
    - rewrite (filter_type_same _ _ T2), (filter_type_other href markdown _ ltac:(done) T1),
        (filter_type_other href src _ ltac:(done) T3). by rewrite !app_nil_r.
    - by rewrite (filter_type_same _ _ T3), (filter_type_other src markdown _ ltac:(done) T1),
        (filter_type_other src href _ ltac:(done) T2). }
  split; [by rewrite !Hf|split].
  - intros ty. rewrite Hf. by destruct ty.
  - intros content' ty [= <-]. rewrite Hf. by destruct ty.
Qed.
